(** * fx-82MS emulator: the calculator state machine of script.js

    The emulator keeps one mutable [state] object and three handlers
    ([handleKey], [handleNumKey], [handleOp]) that the click and keyboard
    listeners call.  Here the object is a record, the handlers are functions
    from state to state, and a JavaScript number is a binary64 float.

    What the DOM shows ([refreshScreen], [updateIndicators]) is a function of
    the state; sound, alerts and the listeners themselves are left out.  The
    answer typed into [prompt] is an argument of [handleKey].  The one loop,
    in the factorial key, runs on fuel: a handler that has not returned
    within the fuel yields [None]. *)

From Stdlib Require Import ZArith Floats String Ascii List Bool Lia.
From Stdlib Require Import DecimalString.
From stdpp Require Import base gmap strings.

Open Scope string_scope.
Open Scope Z_scope.

(** ** JavaScript numbers

    Arithmetic is PrimFloat's (IEEE 754 binary64, round to nearest even).
    [Number], [ToString], [Math_floor] and the remainder are computed from
    the exact value [m * 2^e] of a double.  Strings are byte strings: the
    ones the calculator builds are ASCII. *)
Module Js.

Definition signed_zero (neg : bool) : float :=
  if neg then neg_zero else PrimFloat.zero.

(** The double nearest to [n/d] for [n, d > 0], with the sign [neg]. *)
Definition round_ratio (neg : bool) (n d : Z) : float :=
  if (n <=? 0) || (d <=? 0) then signed_zero neg
  else
    let k := Z.max 0 (64 + Z.log2 d - Z.log2 n) in
    let num := n * 2 ^ k in
    let q := num / d in
    let r := num mod d in
    let loc := if r =? 0 then loc_Exact else loc_Inexact (2 * r ?= d) in
    SF2Prim (binary_round_aux prec emax neg q (- k) loc).

(** The double nearest to [m * 10^e]. *)
Definition round_decimal (neg : bool) (m e : Z) : float :=
  if 0 <=? e then round_ratio neg (m * 10 ^ e) 1
  else round_ratio neg m (10 ^ (- e)).

(** *** Number(s): StringToNumber *)

(* TAB, LF, VT, FF, CR and SP; the white space outside ASCII is not modelled *)
Definition is_space (c : ascii) : bool :=
  let n := nat_of_ascii c in
  (n =? 9)%nat || (n =? 10)%nat || (n =? 11)%nat || (n =? 12)%nat
  || (n =? 13)%nat || (n =? 32)%nat.

Fixpoint trim_start (s : string) : string :=
  match s with
  | String c r => if is_space c then trim_start r else s
  | EmptyString => s
  end.

Fixpoint trim_end (s : string) : string :=
  match s with
  | String c r =>
      match trim_end r with
      | EmptyString => if is_space c then EmptyString else String c EmptyString
      | r' => String c r'
      end
  | EmptyString => EmptyString
  end.

Definition trim (s : string) : string := trim_end (trim_start s).

Definition digit_in (radix : Z) (c : ascii) : option Z :=
  let n := Z.of_nat (nat_of_ascii c) in
  let v := if (48 <=? n) && (n <=? 57) then n - 48
           else if (97 <=? n) && (n <=? 102) then n - 87
           else if (65 <=? n) && (n <=? 70) then n - 55
           else radix in
  if v <? radix then Some v else None.

(** The leading digits of [s]: their value on top of [acc], their count on
    top of [cnt], and what follows them. *)
Fixpoint span_digits (radix : Z) (s : string) (acc cnt : Z) : Z * Z * string :=
  match s with
  | String c r =>
      match digit_in radix c with
      | Some v => span_digits radix r (acc * radix + v) (cnt + 1)
      | None => (acc, cnt, s)
      end
  | EmptyString => (acc, cnt, s)
  end.

(* what follows 0x, 0o or 0b *)
Definition radix_literal (radix : Z) (s : string) : float :=
  let '(v, cnt, rest) := span_digits radix s 0 0 in
  match rest with
  | EmptyString => if 0 <? cnt then round_ratio false v 1 else nan
  | _ => nan
  end.

(* an optional ExponentPart, then the end of the string *)
Definition exponent_part (s : string) : option Z :=
  match s with
  | EmptyString => Some 0
  | String c r =>
      if Ascii.eqb c "e" || Ascii.eqb c "E" then
        let '(neg, r1) :=
          match r with
          | String "-" r' => (true, r')
          | String "+" r' => (false, r')
          | _ => (false, r)
          end in
        let '(v, cnt, rest) := span_digits 10 r1 0 0 in
        match rest with
        | EmptyString => if 0 <? cnt then Some (if neg then - v else v) else None
        | _ => None
        end
      else None
  end.

(* StrUnsignedDecimalLiteral *)
Definition unsigned_decimal (neg : bool) (s : string) : float :=
  if String.eqb s "Infinity" then (if neg then neg_infinity else infinity)
  else
    let '(i, ni, r1) := span_digits 10 s 0 0 in
    let '(m, nf, r2) :=
      match r1 with
      | String "." r' => span_digits 10 r' i 0
      | _ => (i, 0, r1)
      end in
    if ni + nf =? 0 then nan
    else match exponent_part r2 with
         | Some e => round_decimal neg m (e - nf)
         | None => nan
         end.

Definition Number (s : string) : float :=
  match trim s with
  | EmptyString => PrimFloat.zero
  | String "0" (String "x" r) | String "0" (String "X" r) => radix_literal 16 r
  | String "0" (String "o" r) | String "0" (String "O" r) => radix_literal 8 r
  | String "0" (String "b" r) | String "0" (String "B" r) => radix_literal 2 r
  | String "-" r => unsigned_decimal true r
  | String "+" r => unsigned_decimal false r
  | t => unsigned_decimal false t
  end.

(** *** String(x): Number::toString in radix 10 *)

Definition digits_of (z : Z) : string :=
  NilZero.string_of_uint (N.to_uint (Z.to_N z)).

Definition len (s : string) : Z := Z.of_nat (String.length s).

Fixpoint zeros (n : nat) : string :=
  match n with
  | O => EmptyString
  | S n' => String "0" (zeros n')
  end.

Fixpoint strip_zeros (s : string) : string :=
  match s with
  | String c r =>
      match strip_zeros r with
      | EmptyString => if Ascii.eqb c "0" then EmptyString else String c EmptyString
      | r' => String c r'
      end
  | EmptyString => EmptyString
  end.

(** The [n] with [10^(n-1) <= num/den < 10^n]; doubles are above [10^-399]. *)
Definition decimal_point (num den : Z) : Z :=
  len (digits_of (num * 10 ^ 400 / den)) - 400.

(** The integer [s] for which [s * 10^(n-k)] reads back as [x], taken next
    to [num/den] (the nearer side, the even one on a tie), if there is one. *)
Definition candidate (x : float) (num den n k : Z) : option Z :=
  let a := if 0 <=? k - n then num * 10 ^ (k - n) else num in
  let b := if 0 <=? k - n then den else den * 10 ^ (n - k) in
  let lo := a / b in
  let r := a mod b in
  let hi := lo + 1 in
  let back s := PrimFloat.eqb (round_decimal false s (n - k)) x in
  match back lo, back hi with
  | true, true =>
      match 2 * r ?= b with
      | Lt => Some lo
      | Gt => Some hi
      | Eq => Some (if Z.even lo then lo else hi)
      end
  | true, false => Some lo
  | false, true => Some hi
  | false, false => None
  end.

(* the least number of digits [k] that has a candidate; 17 always do *)
Fixpoint shortest (tries : nat) (x : float) (num den n k : Z) : Z * Z :=
  match tries with
  | O => (num * 10 ^ (k - n) / den, k)
  | S t =>
      match candidate x num den n k with
      | Some s => (s, k)
      | None => shortest t x num den n (k + 1)
      end
  end.

Definition slice (a b : Z) (s : string) : string :=
  String.substring (Z.to_nat a) (Z.to_nat (b - a)) s.

(* a finite x > 0, equal to num/den *)
Definition positive_to_string (x : float) (num den : Z) : string :=
  let n0 := decimal_point num den in
  let '(s, k0) := shortest 17 x num den n0 1 in
  let ds0 := digits_of s in
  let n := n0 + (len ds0 - k0) in
  let ds := strip_zeros ds0 in
  let k := len ds in
  if (k <=? n) && (n <=? 21) then ds ++ zeros (Z.to_nat (n - k))
  else if (0 <? n) && (n <=? 21) then slice 0 n ds ++ "." ++ slice n k ds
  else if (-6 <? n) && (n <=? 0) then "0." ++ zeros (Z.to_nat (- n)) ++ ds
  else
    let e := n - 1 in
    let es := (if e <? 0 then "-" else "+") ++ digits_of (Z.abs e) in
    if k =? 1 then ds ++ "e" ++ es
    else slice 0 1 ds ++ "." ++ slice 1 k ds ++ "e" ++ es.

Definition ToString (x : float) : string :=
  match Prim2SF x with
  | S754_nan => "NaN"
  | S754_zero _ => "0"
  | S754_infinity s => if s then "-Infinity" else "Infinity"
  | S754_finite s m e =>
      let num := if 0 <=? e then Z.pos m * 2 ^ e else Z.pos m in
      let den := if 0 <=? e then 1 else 2 ^ (- e) in
      (if s then "-" else "") ++ positive_to_string (abs x) num den
  end.

(** *** Operators and Math functions that are exact *)

Definition isFinite (x : float) : bool := is_finite x.

(* ToBoolean of a number: 0, -0 and NaN are falsy *)
Definition truthy (x : float) : bool := negb (is_zero x || is_nan x).

Definition Math_PI : float := 0x1.921fb54442d18p+1%float.

Definition Math_abs (x : float) : float := abs x.

Definition Math_sqrt (x : float) : float := sqrt x.

Definition Math_floor (x : float) : float :=
  match Prim2SF x with
  | S754_finite s m e =>
      if 0 <=? e then x
      else
        let q := Z.shiftr (Z.pos m) (- e) in
        let whole := Z.shiftl q (- e) =? Z.pos m in
        let n := if s && negb whole then q + 1 else q in
        match n with
        | Z.pos p => SF2Prim (S754_finite s p 0)
        | _ => PrimFloat.zero
        end
  | _ => x
  end.

(* a % b: the remainder of the truncating division, with the dividend's sign *)
Definition rem (a b : float) : float :=
  match Prim2SF a, Prim2SF b with
  | S754_nan, _ | _, S754_nan => nan
  | S754_infinity _, _ => nan
  | _, S754_zero _ => nan
  | S754_zero _, _ => a
  | _, S754_infinity _ => a
  | S754_finite sa ma ea, S754_finite _ mb eb =>
      let e := Z.min ea eb in
      let r := (Z.pos ma * 2 ^ (ea - e)) mod (Z.pos mb * 2 ^ (eb - e)) in
      match r with
      | Z.pos p => SF2Prim (S754_finite sa p e)
      | _ => signed_zero sa
      end
  end.

End Js.

(** ** The Math functions ECMAScript leaves to the engine

    Their results are "implementation-approximated", so the machine takes
    them as an interface and every theorem holds for any engine. *)
Class MathLib := {
  Math_sin : float -> float;
  Math_cos : float -> float;
  Math_tan : float -> float;
  Math_asin : float -> float;
  Math_acos : float -> float;
  Math_atan : float -> float;
  Math_sinh : float -> float;
  Math_cosh : float -> float;
  Math_tanh : float -> float;
  Math_asinh : float -> float;
  Math_acosh : float -> float;
  Math_atanh : float -> float;
  Math_exp : float -> float;
  Math_log : float -> float;
  Math_log10 : float -> float;
  Math_pow : float -> float -> float
}.

(** ** One engine

    Series approximations of those functions, good to a few units in the
    last place on ordinary arguments.  It serves to run the calculator on
    concrete keys; no theorem below is about its values. *)
Module Series.

#[local] Open Scope float_scope.

Definition ln2 : float := 0x1.62e42fefa39efp-1.
Definition ln10 : float := 0x1.26bb1bbb55516p+1.
Definition pi_2 : float := 0x1.921fb54442d18p+0.

(* the integer a whole double stands for *)
Definition to_Z (x : float) : Z :=
  match Prim2SF x with
  | S754_finite s m e =>
      let n := if (0 <=? e)%Z then (Z.pos m * 2 ^ e)%Z else Z.shiftr (Z.pos m) (- e) in
      if s then (- n)%Z else n
  | _ => 0%Z
  end.

(* sum of t_0 = term, t_(i+1) = t_i * x / (k + i) *)
Fixpoint power_series (n : nat) (k term sum x : float) : float :=
  match n with
  | O => sum
  | S n' => let term' := term * x / k in
            power_series n' (k + 1) term' (sum + term') x
  end.

Definition exp (x : float) : float :=
  if is_nan x then nan
  else if 710 <? x then infinity
  else if x <? -746 then 0
  else
    let k := Js.Math_floor (x / ln2 + 0.5) in
    let r := x - k * ln2 in
    Z.ldexp (power_series 24 1 1 1 r) (to_Z k).

(* sum of t^(2i+1) / (2i+1) *)
Fixpoint odd_series (n : nat) (k pw sum t2 : float) (alt : bool) : float :=
  match n with
  | O => sum
  | S n' => let pw' := if alt then - (pw * t2) else pw * t2 in
            odd_series n' (k + 2) pw' (sum + pw' / k) t2 alt
  end.

Definition log (x : float) : float :=
  if is_nan x || (x <? 0) then nan
  else if x =? 0 then neg_infinity
  else if is_infinity x then infinity
  else
    let '(m, e) := Z.frexp x in
    let '(m, e) := if m <? 0x1.6a09e667f3bcdp-1 then (m * 2, (e - 1)%Z) else (m, e) in
    let t := (m - 1) / (m + 1) in
    of_uint63 (Uint63.of_Z (Z.abs e)) * (if (e <? 0)%Z then - ln2 else ln2)
    + 2 * odd_series 24 3 t t (t * t) false.

Definition is_whole (x : float) : bool := is_finite x && (Js.Math_floor x =? x).

(* b^n by squaring *)
Fixpoint pow_pos (b : float) (n : positive) : float :=
  match n with
  | xH => b
  | xO p => let h := pow_pos b p in h * h
  | xI p => let h := pow_pos b p in h * h * b
  end.

Definition pow (b e : float) : float :=
  if e =? 0 then 1
  else if is_nan b || is_nan e then nan
  else if is_whole e && (abs e <? 2048) then
    match to_Z e with
    | Z.pos n => pow_pos b n
    | Z.neg n => 1 / pow_pos b n
    | Z0 => 1
    end
  else if 0 <? b then exp (e * log b)
  else if b =? 0 then (if 0 <? e then 0 else infinity)
  else nan.

Definition log10 (x : float) : float :=
  let y := log x / ln10 in
  let n := Js.Math_floor (y + 0.5) in
  if pow 10 n =? x then n else y.

(* sin and cos of r in [-pi/4, pi/4] *)
Fixpoint trig_series (n : nat) (k term sum r2 : float) : float :=
  match n with
  | O => sum
  | S n' => let term' := - (term * r2) / (k * (k + 1)) in
            trig_series n' (k + 2) term' (sum + term') r2
  end.

Definition sin_small (r : float) : float := r * trig_series 12 2 1 1 (r * r).
Definition cos_small (r : float) : float := trig_series 12 1 1 1 (r * r).

Definition quadrant (x : float) : Z * float :=
  let k := Js.Math_floor (x / pi_2 + 0.5) in
  ((to_Z k mod 4)%Z, x - k * pi_2 - k * 0x1.1a62633145c07p-54).

Definition sin (x : float) : float :=
  if negb (is_finite x) then nan
  else if x =? 0 then x
  else match quadrant x with
       | (0%Z, r) => sin_small r
       | (1%Z, r) => cos_small r
       | (2%Z, r) => - sin_small r
       | (_, r) => - cos_small r
       end.

Definition cos (x : float) : float :=
  if negb (is_finite x) then nan
  else match quadrant x with
       | (0%Z, r) => cos_small r
       | (1%Z, r) => - sin_small r
       | (2%Z, r) => - cos_small r
       | (_, r) => sin_small r
       end.

Definition tan (x : float) : float := if x =? 0 then x else sin x / cos x.

Definition atan_small (t : float) : float := odd_series 40 3 t t (t * t) true.

Definition atan (x : float) : float :=
  if is_nan x then nan
  else if x =? 0 then x
  else
    let a := abs x in
    let r := if 0x1.3504f333f9de6p+1 <? a then pi_2 - atan_small (1 / a)
             else if 0x1.a827999fcef32p-2 <? a then pi_2 / 2 + atan_small ((a - 1) / (a + 1))
             else atan_small a in
    if x <? 0 then - r else r.

Definition asin (x : float) : float :=
  if x =? 0 then x else atan (x / sqrt (1 - x * x)).

Definition acos (x : float) : float := pi_2 - asin x.

Definition sinh (x : float) : float :=
  if x =? 0 then x else (exp x - exp (- x)) / 2.

Definition cosh (x : float) : float := (exp x + exp (- x)) / 2.

Definition tanh (x : float) : float :=
  if x =? 0 then x
  else if 20 <? x then 1
  else if x <? -20 then -1
  else sinh x / cosh x.

Definition asinh (x : float) : float :=
  if x =? 0 then x
  else let r := log (abs x + sqrt (x * x + 1)) in if x <? 0 then - r else r.

Definition acosh (x : float) : float := log (x + sqrt (x * x - 1)).

Definition atanh (x : float) : float :=
  if x =? 0 then x else log ((1 + x) / (1 - x)) / 2.

End Series.

#[global] Instance series_math : MathLib := {|
  Math_sin := Series.sin;
  Math_cos := Series.cos;
  Math_tan := Series.tan;
  Math_asin := Series.asin;
  Math_acos := Series.acos;
  Math_atan := Series.atan;
  Math_sinh := Series.sinh;
  Math_cosh := Series.cosh;
  Math_tanh := Series.tanh;
  Math_asinh := Series.asinh;
  Math_acosh := Series.acosh;
  Math_atanh := Series.atanh;
  Math_exp := Series.exp;
  Math_log := Series.log;
  Math_log10 := Series.log10;
  Math_pow := Series.pow
|}.

(** ** State *)

Inductive AngleMode := DEG | RAD.

Record State := {
  power : bool;
  shift : bool;
  alpha : bool;
  hyp : bool;
  mode : AngleMode;
  acc : float;                  (* accumulator *)
  pendingOp : option string;    (* null is None *)
  current : string;             (* current entry as string *)
  lastAns : float;
  memory : float;
  vars : gmap string float      (* ALPHA variables *)
}.

Definition state : State := {|
  power := true;
  shift := false;
  alpha := false;
  hyp := false;
  mode := DEG;
  acc := 0;
  pendingOp := None;
  current := "";
  lastAns := 0;
  memory := 0;
  vars := ∅
|}.

(* one assignment to a field of the state object *)
Definition set_power (b : bool) (st : State) : State :=
  {| power := b; shift := shift st; alpha := alpha st; hyp := hyp st;
     mode := mode st; acc := acc st; pendingOp := pendingOp st;
     current := current st; lastAns := lastAns st; memory := memory st;
     vars := vars st |}.

Definition set_shift (b : bool) (st : State) : State :=
  {| power := power st; shift := b; alpha := alpha st; hyp := hyp st;
     mode := mode st; acc := acc st; pendingOp := pendingOp st;
     current := current st; lastAns := lastAns st; memory := memory st;
     vars := vars st |}.

Definition set_alpha (b : bool) (st : State) : State :=
  {| power := power st; shift := shift st; alpha := b; hyp := hyp st;
     mode := mode st; acc := acc st; pendingOp := pendingOp st;
     current := current st; lastAns := lastAns st; memory := memory st;
     vars := vars st |}.

Definition set_hyp (b : bool) (st : State) : State :=
  {| power := power st; shift := shift st; alpha := alpha st; hyp := b;
     mode := mode st; acc := acc st; pendingOp := pendingOp st;
     current := current st; lastAns := lastAns st; memory := memory st;
     vars := vars st |}.

Definition set_mode (m : AngleMode) (st : State) : State :=
  {| power := power st; shift := shift st; alpha := alpha st; hyp := hyp st;
     mode := m; acc := acc st; pendingOp := pendingOp st;
     current := current st; lastAns := lastAns st; memory := memory st;
     vars := vars st |}.

Definition set_acc (x : float) (st : State) : State :=
  {| power := power st; shift := shift st; alpha := alpha st; hyp := hyp st;
     mode := mode st; acc := x; pendingOp := pendingOp st;
     current := current st; lastAns := lastAns st; memory := memory st;
     vars := vars st |}.

Definition set_pendingOp (op : option string) (st : State) : State :=
  {| power := power st; shift := shift st; alpha := alpha st; hyp := hyp st;
     mode := mode st; acc := acc st; pendingOp := op;
     current := current st; lastAns := lastAns st; memory := memory st;
     vars := vars st |}.

Definition set_current (s : string) (st : State) : State :=
  {| power := power st; shift := shift st; alpha := alpha st; hyp := hyp st;
     mode := mode st; acc := acc st; pendingOp := pendingOp st;
     current := s; lastAns := lastAns st; memory := memory st;
     vars := vars st |}.

Definition set_lastAns (x : float) (st : State) : State :=
  {| power := power st; shift := shift st; alpha := alpha st; hyp := hyp st;
     mode := mode st; acc := acc st; pendingOp := pendingOp st;
     current := current st; lastAns := x; memory := memory st;
     vars := vars st |}.

Definition set_memory (x : float) (st : State) : State :=
  {| power := power st; shift := shift st; alpha := alpha st; hyp := hyp st;
     mode := mode st; acc := acc st; pendingOp := pendingOp st;
     current := current st; lastAns := lastAns st; memory := x;
     vars := vars st |}.

Definition set_vars (m : gmap string float) (st : State) : State :=
  {| power := power st; shift := shift st; alpha := alpha st; hyp := hyp st;
     mode := mode st; acc := acc st; pendingOp := pendingOp st;
     current := current st; lastAns := lastAns st; memory := memory st;
     vars := m |}.

(** ** Values

    [toNumber] is called on [state.current || state.lastAns], which is a
    string or a number, and [r] in [executePending] is a number or 'Error'. *)
Inductive value :=
  | Str (s : string)
  | Num (x : float).

(* a || b *)
Definition or_else (a b : value) : value :=
  match a with
  | Str EmptyString => b
  | Str _ => a
  | Num x => if Js.truthy x then a else b
  end.

(* a pending operator is tested by truthiness: null and '' are falsy *)
Definition op_set (op : option string) : bool :=
  match op with
  | None | Some EmptyString => false
  | Some _ => true
  end.

(* function toNumber(s) { return s === '' ? 0 : Number(s); } *)
Definition toNumber (s : value) : float :=
  match s with
  | Str EmptyString => 0%float
  | Str t => Js.Number t
  | Num x => x
  end.

(* what a computed number becomes in state.current *)
Definition shown (res : float) : string :=
  if negb (Js.isFinite res) then "Error" else Js.ToString res.

(* refreshScreen: the expression line and the result line
   (lastAns is never null or undefined, so `?? 0` keeps it) *)
Definition refreshScreen (st : State) : string * string :=
  (match pendingOp st with
   | Some op => if op_set (Some op) then Js.ToString (acc st) ++ " " ++ op else ""
   | None => ""
   end,
   if String.eqb (current st) "" then Js.ToString (lastAns st) else current st).

(* clear shift/alpha after single use; HYP is persistent *)
Definition clearShifts (st : State) : State :=
  set_alpha false (set_shift false st).

(** ** String helpers *)

Notation "a === b" := (String.eqb a b) (at level 70, no associativity).

(* s.includes(c) for a one-character c *)
Fixpoint includes (c : ascii) (s : string) : bool :=
  match s with
  | String a r => Ascii.eqb a c || includes c r
  | EmptyString => false
  end.

(* s.slice(0, -1) *)
Fixpoint slice_0_m1 (s : string) : string :=
  match s with
  | String _ EmptyString => EmptyString
  | String a r => String a (slice_0_m1 r)
  | EmptyString => EmptyString
  end.

(* toUpperCase, on ASCII letters *)
Definition upper (c : ascii) : ascii :=
  let n := nat_of_ascii c in
  if (97 <=? n)%nat && (n <=? 122)%nat then ascii_of_nat (n - 32) else c.

Fixpoint toUpperCase (s : string) : string :=
  match s with
  | String a r => String (upper a) (toUpperCase r)
  | EmptyString => EmptyString
  end.

Definition charAt0 (s : string) : string :=
  match s with
  | String a _ => String a EmptyString
  | EmptyString => EmptyString
  end.

(* /[A-F]/.test(key), for a key of at most one character *)
Definition test_A_F (key : string) : bool :=
  match key with
  | String a _ => let n := nat_of_ascii a in (65 <=? n)%nat && (n <=? 70)%nat
  | EmptyString => false
  end.

(** ** The handlers *)

Inductive TrigKind := Sin | Cos | Tan.

Section Machine.

Context `{MathLib}.

Definition degToRad (v : float) : float := (v * Js.Math_PI / 180)%float.

Definition radToDeg (v : float) : float := (v * 180 / Js.Math_PI)%float.

(* toNumber(state.current || state.lastAns) *)
Definition entry (st : State) : float :=
  toNumber (or_else (Str (current st)) (Num (lastAns st))).

(** [fn] returns [None] when it has not returned yet: only the factorial
    loops.  None of the functions passed in throws, so the catch is dead. *)
Definition applyUnary (fn : float -> option float) (st : State) : option State :=
  if negb (power st) then Some st
  else
    let val := entry st in
    match fn val with
    | Some res => Some (clearShifts (set_current (shown res) st))
    | None => None
    end.

(* the local [result] of trigApply *)
Definition trigResult (kind : TrigKind) (st : State) : float :=
  let val := entry st in
  let isHyp := hyp st in
  let isInv := shift st in
  let inRad := match mode st with DEG => degToRad val | RAD => val end in
  if isHyp then
    if isInv then
      match kind with
      | Sin => Math_asinh val
      | Cos => Math_acosh val
      | Tan => Math_atanh val
      end
    else
      match kind with
      | Sin => Math_sinh inRad
      | Cos => Math_cosh inRad
      | Tan => Math_tanh inRad
      end
  else
    if isInv then
      let result :=
        match kind with
        | Sin => Math_asin val
        | Cos => Math_acos val
        | Tan => Math_atan val
        end in
      match mode st with DEG => radToDeg result | RAD => result end
    else
      match kind with
      | Sin => Math_sin inRad
      | Cos => Math_cos inRad
      | Tan => Math_tan inRad
      end.

Definition trigApply (kind : TrigKind) (st : State) : State :=
  if negb (power st) then st
  else clearShifts (set_current (shown (trigResult kind st)) st).

(* binary operation execution *)
Definition executePending (st : State) : State :=
  if negb (op_set (pendingOp st)) then
    set_current "" (set_acc (entry st) st)
  else
    let a := acc st in
    let b := toNumber (if current st === "" then Num (lastAns st)
                       else Str (current st)) in
    let r :=
      match pendingOp st with
      | Some "+" => Num (a + b)
      | Some "−" => Num (a - b)
      | Some "×" => Num (a * b)
      | Some "÷" => if (b =? 0)%float then Str "Error" else Num (a / b)
      | Some "%" => Num (Js.rem a b)
      | _ => Num b
      end in
    match r with
    | Str _ => set_pendingOp None (set_acc 0 (set_current "Error" st))
    | Num x =>
        if negb (Js.isFinite x) then
          set_pendingOp None (set_acc 0 (set_current "Error" st))
        else set_current "" (set_lastAns x (set_acc x st))
    end.

(* for (let i = 2; i <= v; i++) res *= i; *)
Fixpoint factorial_loop (fuel : nat) (i res v : float) : option float :=
  match fuel with
  | O => None
  | S fuel' =>
      if (i <=? v)%float then factorial_loop fuel' (i + 1)%float (res * i)%float v
      else Some res
  end.

Definition factorial (fuel : nat) (v : float) : option float :=
  let v := Js.Math_floor v in
  if (v <? 0)%float then Some nan else factorial_loop fuel 2 1 v.

(* STO / RCL with ALPHA on; [answer] is what prompt returned *)
Definition storeRecall (fn : string) (answer : option string) (st : State) : State :=
  match answer with
  | None | Some EmptyString => clearShifts st
  | Some name =>
      let key := charAt0 (toUpperCase (Js.trim name)) in
      if negb (test_A_F key) then clearShifts st
      else if fn === "sto" then
        let v := toNumber (if current st === "" then Num (lastAns st)
                           else Str (current st)) in
        clearShifts (set_vars (<[key := v]> (vars st)) st)
      else
        match vars st !! key with
        | Some x => clearShifts (set_current (Js.ToString x) st)
        | None => clearShifts st
        end
  end.

(** [fuel] bounds the iterations of the factorial loop; [None] means the
    handler is still running. *)
Definition handleKey (fuel : nat) (fn : string) (answer : option string)
    (st : State) : option State :=
  if negb (power st) && negb (fn === "on") then Some st
  else if fn === "on" then Some (set_current "" (set_power true st))
  else if fn === "shift" then
    Some (set_alpha false (set_shift (negb (shift st)) st))
  else if fn === "alpha" then
    Some (set_shift false (set_alpha (negb (alpha st)) st))
  else if fn === "hyp" then Some (set_hyp (negb (hyp st)) st)
  else if (fn === "mode") || (fn === "drg") then
    Some (set_mode (match mode st with DEG => RAD | RAD => DEG end) st)
  else if fn === "ac" then
    if shift st then
      Some (set_alpha false (set_shift false (set_lastAns 0 (set_acc 0
              (set_pendingOp None (set_current "" (set_power false st)))))))
    else
      Some (clearShifts (set_lastAns 0 (set_acc 0
              (set_pendingOp None (set_current "" st)))))
  else if fn === "del" then
    Some (clearShifts
            (if (0 <? Js.len (current st))
             then set_current (slice_0_m1 (current st)) st else st))
  else if fn === "ans" then
    Some (clearShifts
            (set_current (Js.ToString (if Js.truthy (lastAns st) then lastAns st
                                       else 0%float)) st))
  else if fn === "pi" then
    Some (clearShifts (set_current (Js.ToString Js.Math_PI) st))
  else if fn === "%" then applyUnary (fun v => Some (v / 100)%float) st
  else if fn === "sqrt" then applyUnary (fun v => Some (Js.Math_sqrt v)) st
  else if fn === "recip" then applyUnary (fun v => Some (1 / v)%float) st
  else if fn === "x2" then applyUnary (fun v => Some (v * v)%float) st
  else if fn === "x3" then applyUnary (fun v => Some (v * v * v)%float) st
  else if fn === "log" then
    if shift st then applyUnary (fun v => Some (Math_pow 10 v)) st
    else applyUnary (fun v => Some (Math_log10 v)) st
  else if fn === "ln" then
    if shift st then applyUnary (fun v => Some (Math_exp v)) st
    else applyUnary (fun v => Some (Math_log v)) st
  else if fn === "sin" then Some (trigApply Sin st)
  else if fn === "cos" then Some (trigApply Cos st)
  else if fn === "tan" then Some (trigApply Tan st)
  else if fn === "x!" then applyUnary (factorial fuel) st
  else if fn === "equal" then
    Some (clearShifts (set_pendingOp None (set_current ""
            (let st' := executePending st in set_lastAns (acc st') st'))))
  else if (fn === "sto") || (fn === "rcl") then
    if alpha st then Some (storeRecall fn answer st)
    else Some (clearShifts st)
  else if fn === "m+" then
    Some (clearShifts (set_memory (memory st + entry st)%float st))
  else if fn === "m-" then
    Some (clearShifts (set_memory (memory st - entry st)%float st))
  else if fn === "mr" then
    Some (clearShifts (set_current (Js.ToString (memory st)) st))
  else if fn === "mc" then Some (clearShifts (set_memory 0 st))
  else if fn === "eng" then
    let v := entry st in
    if (v =? 0)%float then Some (clearShifts (set_current "0" st))
    else
      let p := Js.Math_floor (Math_log10 (Js.Math_abs v) / 3)%float in
      let m := (v / Math_pow 10 (p * 3))%float in
      Some (clearShifts
              (set_current (Js.ToString m ++ "e" ++ Js.ToString (p * 3)%float) st))
  else Some (clearShifts st).

(* numeric and operator key handling *)
Definition handleNumKey (d : string) (st : State) : State :=
  if negb (power st) then st
  else if (d === ".") && includes "." (current st) then st
  else if (current st === "0") && negb (d === ".") then set_current d st
  else set_current (current st ++ d) st.

Definition handleOp (op : string) (st : State) : State :=
  if negb (power st) then st
  else
    set_pendingOp (Some op)
      (if op_set (pendingOp st) && negb (current st === "") then executePending st
       else if negb (current st === "") then
         set_current "" (set_acc (toNumber (Str (current st))) st)
       else st).

(** ** Events

    The keys the listeners deliver, by the handler each one reaches:
    data-num keys go to [handleNumKey], data-op keys to [handleOp] and
    data-fn keys to [handleKey], under the names the handlers test for.
    MODE and DRG are two keys with one effect. *)

Inductive digit := D0 | D1 | D2 | D3 | D4 | D5 | D6 | D7 | D8 | D9.

Inductive BinaryOperator := Plus | Minus | Times | Divide | Modulo.

Inductive ModeKey := MODE | DRG.

Inductive Event :=
  | PowerOn
  | Shift
  | Alpha
  | Hyp
  | ModeToggle (key : ModeKey)
  | AllClear
  | Digit (d : digit)
  | DecimalPoint
  | Delete
  | Ans
  | Pi
  | BinaryOp (op : BinaryOperator)
  | Equals
  | Percent
  | Sqrt
  | Reciprocal
  | Square
  | Cube
  | Log
  | Ln
  | Factorial
  | Trig (kind : TrigKind)
  | MemAdd
  | MemSub
  | MemRecall
  | MemClear
  | Store (answer : option string)
  | Recall (answer : option string)
  | EngNotation.

Definition digit_key (d : digit) : string :=
  match d with
  | D0 => "0" | D1 => "1" | D2 => "2" | D3 => "3" | D4 => "4"
  | D5 => "5" | D6 => "6" | D7 => "7" | D8 => "8" | D9 => "9"
  end.

Definition op_key (op : BinaryOperator) : string :=
  match op with
  | Plus => "+" | Minus => "−" | Times => "×" | Divide => "÷" | Modulo => "%"
  end.

Definition fn_key (e : Event) : string :=
  match e with
  | PowerOn => "on"
  | Shift => "shift"
  | Alpha => "alpha"
  | Hyp => "hyp"
  | ModeToggle MODE => "mode"
  | ModeToggle DRG => "drg"
  | AllClear => "ac"
  | Delete => "del"
  | Ans => "ans"
  | Pi => "pi"
  | Equals => "equal"
  | Percent => "%"
  | Sqrt => "sqrt"
  | Reciprocal => "recip"
  | Square => "x2"
  | Cube => "x3"
  | Log => "log"
  | Ln => "ln"
  | Factorial => "x!"
  | Trig Sin => "sin"
  | Trig Cos => "cos"
  | Trig Tan => "tan"
  | MemAdd => "m+"
  | MemSub => "m-"
  | MemRecall => "mr"
  | MemClear => "mc"
  | Store _ => "sto"
  | Recall _ => "rcl"
  | EngNotation => "eng"
  | Digit d => digit_key d
  | DecimalPoint => "."
  | BinaryOp op => op_key op
  end.

(* the click listener: num, then op, then fn; prompt is only reached by
   STO and RCL *)
Definition step (fuel : nat) (e : Event) (st : State) : option State :=
  match e with
  | Digit d => Some (handleNumKey (digit_key d) st)
  | DecimalPoint => Some (handleNumKey "." st)
  | BinaryOp op => Some (handleOp (op_key op) st)
  | Store answer => handleKey fuel "sto" answer st
  | Recall answer => handleKey fuel "rcl" answer st
  | _ => handleKey fuel (fn_key e) None st
  end.

Fixpoint run (fuel : nat) (es : list Event) (st : State) : option State :=
  match es with
  | [] => Some st
  | e :: es' =>
      match step fuel e st with
      | Some st' => run fuel es' st'
      | None => None
      end
  end.

(** The states the calculator can be in: what a sequence of events makes of
    the initial [state]. *)
Inductive reachable : State -> Prop :=
  | reachable_init : reachable state
  | reachable_step st fuel e st' :
      reachable st -> step fuel e st = Some st' -> reachable st'.

(** The entry grammar: digits, at most one '.'. *)
Definition is_digit (c : ascii) : bool :=
  let n := nat_of_ascii c in (48 <=? n)%nat && (n <=? 57)%nat.

Fixpoint entry_chars (s : string) : bool :=
  match s with
  | String c r => (is_digit c || Ascii.eqb c ".") && entry_chars r
  | EmptyString => true
  end.

Fixpoint dots (s : string) : nat :=
  match s with
  | String c r => (if Ascii.eqb c "." then 1 else 0) + dots r
  | EmptyString => 0
  end.

Definition entry_literal (s : string) : bool :=
  entry_chars s && (dots s <=? 1)%nat.

(** ** The listeners and the indicators *)

(* toLowerCase, on ASCII letters *)
Definition lower (c : ascii) : ascii :=
  let n := nat_of_ascii c in
  if (65 <=? n)%nat && (n <=? 90)%nat then ascii_of_nat (n + 32) else c.

Fixpoint toLowerCase (s : string) : string :=
  match s with
  | String a r => String (lower a) (toLowerCase r)
  | EmptyString => EmptyString
  end.

(* /\d/.test(s) *)
Fixpoint has_digit (s : string) : bool :=
  match s with
  | String c r => is_digit c || has_digit r
  | EmptyString => false
  end.

(* the click listener of a key with the attributes data-num, data-op and
   data-fn (None: the attribute is absent) *)
Definition click (fuel : nat) (num op fn : option string)
    (answer : option string) (st : State) : option State :=
  match num, op, fn with
  | Some d, _, _ => Some (handleNumKey d st)
  | None, Some o, _ => Some (handleOp o st)
  | None, None, Some EmptyString => Some st
  | None, None, Some f => handleKey fuel f answer st
  | None, None, None => Some st
  end.

(* the keydown listener, on e.key *)
Definition keydown (fuel : nat) (key : string) (st : State) : option State :=
  if negb (power st) && negb (toLowerCase key === "o") then Some st
  else if has_digit key || (key === ".") then Some (handleNumKey key st)
  else if key === "+" then Some (handleOp "+" st)
  else if key === "-" then Some (handleOp "−" st)
  else if key === "*" then Some (handleOp "×" st)
  else if key === "/" then Some (handleOp "÷" st)
  else if (key === "Enter") || (key === "=") then handleKey fuel "equal" None st
  else if key === "Backspace" then handleKey fuel "del" None st
  else if toLowerCase key === "c" then handleKey fuel "ac" None st
  else if toLowerCase key === "o" then handleKey fuel "on" None st
  else Some st.

Fixpoint type_keys (fuel : nat) (keys : list string) (st : State) : option State :=
  match keys with
  | [] => Some st
  | key :: keys' =>
      match keydown fuel key st with
      | Some st' => type_keys fuel keys' st'
      | None => None
      end
  end.

(* updateIndicators: the texts of the five indicators *)
Record Indicators := {
  shiftInd : string;
  alphaInd : string;
  hypInd : string;
  modeInd : string;
  powerInd : string
}.

Definition updateIndicators (st : State) : Indicators := {|
  shiftInd := if shift st then "S" else "";
  alphaInd := if alpha st then "A" else "";
  hypInd := if hyp st then "HYP" else "";
  modeInd := match mode st with DEG => "DEG" | RAD => "RAD" end;
  powerInd := if power st then "ON" else "OFF"
|}.

(* name.trim().toUpperCase().charAt(0): the variable STO and RCL address *)
Definition var_key (name : string) : string :=
  charAt0 (toUpperCase (Js.trim name)).

End Machine.

(** ** Classes of events *)

(* the keys after which [clearShifts] has run *)
Definition clears_modifiers (e : Event) : bool :=
  match e with
  | PowerOn | Shift | Alpha | Hyp | ModeToggle _
  | Digit _ | DecimalPoint | BinaryOp _ => false
  | _ => true
  end.

(* the keys that leave SHIFT and ALPHA as they are *)
Definition keeps_modifiers (e : Event) : bool :=
  match e with
  | PowerOn | Hyp | ModeToggle _ | Digit _ | DecimalPoint | BinaryOp _ => true
  | _ => false
  end.

(* the keys that write no computed number and no 'Error' into the entry;
   Pi writes a literal of the grammar *)
Definition keeps_entry (e : Event) : bool :=
  match e with
  | PowerOn | Shift | Alpha | Hyp | ModeToggle _ | AllClear
  | Digit _ | DecimalPoint | Delete | Pi | Equals
  | MemAdd | MemSub | MemClear | Store _ => true
  | _ => false
  end.

(** ** Typed text *)

(* the digits of a number typed key by key *)
Fixpoint digits_text (ds : list digit) : string :=
  match ds with
  | [] => ""
  | d :: ds' => digit_key d ++ digits_text ds'
  end.

(* no white space in [s] *)
Fixpoint no_space (s : string) : bool :=
  match s with
  | String c r => negb (Js.is_space c) && no_space r
  | EmptyString => true
  end.

(** ** Some states of the calculator *)

(* after Shift *)
Definition shifted : State := set_shift true state.

(* after Shift, AllClear *)
Definition switched_off : State := set_power false state.

(* after Reciprocal: 1 / 0 *)
Definition failed : State := set_current "Error" state.

(* after Digit 1, Digit 2 *)
Definition typed_12 : State := set_current "12" state.

(* after a 1 and 309 zeros *)
Definition huge : State := set_current ("1" ++ Js.zeros 309) state.

(* 8 ÷ 0, before the division is evaluated *)
Definition dividing : State :=
  set_current "0" (set_pendingOp (Some "÷") (set_acc 8 state)).

(* after Digit 1, Digit 2, Alpha *)
Definition lettered : State := set_alpha true typed_12.

(* after Digit 1, Digit 2, Alpha, Store A *)
Definition stored : State := set_vars (<["A" := 12%float]> (vars state)) typed_12.

(** ** The number model on known values *)

Example Number_of_entries :
  Js.Number "8" = 8%float /\ Js.Number "0" = 0%float /\
  Js.Number "12.5" = 12.5%float /\ Js.Number ".5" = 0.5%float /\
  Js.Number "5." = 5%float /\ Js.Number "1e3" = 1000%float /\
  Js.Number "0x1F" = 31%float /\ Js.Number " 42 " = 42%float /\
  Js.Number "3.141592653589793" = Js.Math_PI /\
  Js.Number "1e400" = infinity /\ Js.Number "-Infinity" = neg_infinity.
Proof. vm_compute. repeat split. Qed.

Example Number_of_non_literals :
  Js.Number "Error" = nan /\ Js.Number "." = nan /\ Js.Number "1.2.3" = nan /\
  Js.Number "12.345e3x" = nan /\ Js.Number "NaN" = nan /\ Js.Number "" = 0%float.
Proof. vm_compute. repeat split. Qed.

Example ToString_of_numbers :
  Js.ToString 1 = "1" /\ Js.ToString 0 = "0" /\ Js.ToString (-0) = "0" /\
  Js.ToString nan = "NaN" /\ Js.ToString infinity = "Infinity" /\
  Js.ToString 0.5 = "0.5" /\ Js.ToString (-1.5) = "-1.5" /\
  Js.ToString (1 / 3) = "0.3333333333333333" /\
  Js.ToString (1 / 10 + 2 / 10) = "0.30000000000000004" /\
  Js.ToString Js.Math_PI = "3.141592653589793" /\
  Js.ToString (Js.Math_sqrt 2) = "1.4142135623730951" /\
  Js.ToString 0x1p70 = "1.1805916207174113e+21" /\
  Js.ToString 0x1p69 = "590295810358705700000" /\
  Js.ToString 0x1p-20 = "9.5367431640625e-7" /\
  Js.ToString 0x1p-1074 = "5e-324" /\
  Js.ToString 0x1.fffffffffffffp+1023 = "1.7976931348623157e+308".
Proof. vm_compute. repeat split. Qed.

Example floor_and_remainder :
  Js.Math_floor 2.5 = 2%float /\ Js.Math_floor (-2.5) = (-3)%float /\
  Js.Math_floor (-0.5) = (-1)%float /\ Js.Math_floor nan = nan /\
  Js.Math_floor infinity = infinity /\
  Js.rem 7 4 = 3%float /\ Js.rem (-7) 4 = (-3)%float /\ Js.rem 7 (-4) = 3%float /\
  Js.rem 5.5 2 = 1.5%float /\ Js.rem 1 0 = nan /\ Js.rem 5 infinity = 5%float.
Proof. vm_compute. repeat split. Qed.

(** ** Frame lemmas for the handlers *)

Arguments Js.ToString : simpl never.
Arguments Js.Number : simpl never.
Arguments Js.Math_floor : simpl never.
Arguments Js.rem : simpl never.
Arguments shown : simpl never.

(* the handler a key reaches, with the tests on the key's name decided *)
Ltac eval_key :=
  unfold step, handleKey in *;
  cbn [fn_key digit_key op_key String.eqb Ascii.eqb Bool.eqb negb andb orb] in *.

(* one case per key *)
Ltac destruct_event e :=
  destruct e as [| | | |[]| | | | | | | | | | | | | | | | |[]| | | | | | |].

Section Frames.

Context `{MathLib}.

Lemma clearShifts_frame st :
  let st' := clearShifts st in
  shift st' = false /\ alpha st' = false /\ power st' = power st /\
  hyp st' = hyp st /\ mode st' = mode st /\ acc st' = acc st /\
  pendingOp st' = pendingOp st /\ current st' = current st /\
  lastAns st' = lastAns st /\ memory st' = memory st /\ vars st' = vars st.
Proof. simpl. repeat split. Qed.

Lemma applyUnary_inv fn st st' :
  applyUnary fn st = Some st' ->
  (power st = false /\ st' = st) \/
  (power st = true /\
   exists res, fn (entry st) = Some res /\
               st' = clearShifts (set_current (shown res) st)).
Proof.
  unfold applyUnary. destruct (power st); simpl.
  - destruct (fn (entry st)) as [res|]; [|discriminate].
    intros [= <-]. right. eauto.
  - intros [= <-]. left. auto.
Qed.

Lemma executePending_frame st :
  let st' := executePending st in
  power st' = power st /\ shift st' = shift st /\ alpha st' = alpha st /\
  hyp st' = hyp st /\ mode st' = mode st /\ memory st' = memory st /\
  vars st' = vars st.
Proof.
  unfold executePending.
  repeat match goal with
         | |- context [if ?b then _ else _] => destruct b
         | |- context [match ?x with _ => _ end] => destruct x
         end; simpl; repeat split.
Qed.

Lemma storeRecall_frame fn answer st :
  let st' := storeRecall fn answer st in
  power st' = power st /\ shift st' = false /\ alpha st' = false /\
  hyp st' = hyp st /\ mode st' = mode st /\ acc st' = acc st /\
  pendingOp st' = pendingOp st /\ lastAns st' = lastAns st /\
  memory st' = memory st.
Proof.
  unfold storeRecall.
  repeat match goal with
         | |- context [if ?b then _ else _] => destruct b
         | |- context [match ?x with _ => _ end] => destruct x
         end; simpl; repeat split.
Qed.

Lemma trigApply_frame kind st :
  let st' := trigApply kind st in
  power st' = power st /\ hyp st' = hyp st /\ mode st' = mode st /\
  (power st = true -> shift st' = false /\ alpha st' = false) /\
  acc st' = acc st /\ pendingOp st' = pendingOp st /\
  lastAns st' = lastAns st /\ memory st' = memory st /\ vars st' = vars st.
Proof.
  unfold trigApply.
  destruct (power st) eqn:E; simpl; repeat split; auto; discriminate.
Qed.

End Frames.

Section Properties.

Context `{MathLib}.

Lemma handleNumKey_off d st : power st = false -> handleNumKey d st = st.
Proof. unfold handleNumKey. now intros ->. Qed.

Lemma handleOp_off op st : power st = false -> handleOp op st = st.
Proof. unfold handleOp. now intros ->. Qed.

Lemma handleNumKey_frame d st :
  let st' := handleNumKey d st in
  power st' = power st /\ shift st' = shift st /\ alpha st' = alpha st /\
  hyp st' = hyp st /\ mode st' = mode st /\ (power st = false -> st' = st) /\
  acc st' = acc st /\ pendingOp st' = pendingOp st /\
  lastAns st' = lastAns st /\ memory st' = memory st /\ vars st' = vars st.
Proof.
  cbv zeta. repeat split; try apply handleNumKey_off; unfold handleNumKey;
    repeat match goal with
           | |- context [if ?b then _ else _] => destruct b
           end; reflexivity.
Qed.

Lemma handleOp_frame op st :
  let st' := handleOp op st in
  power st' = power st /\ shift st' = shift st /\ alpha st' = alpha st /\
  hyp st' = hyp st /\ mode st' = mode st /\ (power st = false -> st' = st) /\
  memory st' = memory st /\ vars st' = vars st.
Proof.
  destruct (executePending_frame st) as (? & ? & ? & ? & ? & ? & ?).
  cbv zeta. repeat split; try apply handleOp_off; unfold handleOp;
    repeat match goal with
           | |- context [if ?b then _ else _] => destruct b
           end; simpl; auto.
Qed.

(* the frame of a handler's result, and the result made a variable *)
Ltac frame_of lemma :=
  let F := fresh "F" in
  pose proof lemma as F; cbv zeta in F;
  decompose [and] F; clear F;
  match type of lemma with
  | let st' := ?t in _ => let x := fresh "st'" in set (x := t) in *; clearbody x
  end.

(** What one event does to the modifiers, the power flag and the mode. *)
Lemma step_modifiers fuel e st st' :
  step fuel e st = Some st' ->
  (e <> Hyp -> hyp st' = hyp st) /\
  ((forall key, e <> ModeToggle key) -> mode st' = mode st) /\
  (power st = false -> e <> PowerOn -> st' = st) /\
  (power st = true ->
   power st' = true \/ (shift st' = false /\ alpha st' = false /\ current st' = "")) /\
  (power st = true -> clears_modifiers e = true ->
   shift st' = false /\ alpha st' = false) /\
  (keeps_modifiers e = true -> shift st' = shift st /\ alpha st' = alpha st).
Proof.
  intros Hs.
  destruct e as [| | | |[]| |d| | | | |op| | | | | | | | | |[]| | | | |answer|answer|];
    eval_key;
    try frame_of (handleNumKey_frame (digit_key d) st);
    try frame_of (handleNumKey_frame "." st);
    try frame_of (handleOp_frame (op_key op) st);
    try frame_of (storeRecall_frame "sto" answer st);
    try frame_of (storeRecall_frame "rcl" answer st);
    frame_of (executePending_frame st);
    frame_of (trigApply_frame Sin st);
    frame_of (trigApply_frame Cos st);
    frame_of (trigApply_frame Tan st);
    destruct (power st) eqn:Hp; cbn [negb andb orb] in Hs;
    repeat match type of Hs with
           | applyUnary ?f ?s = Some _ =>
               apply applyUnary_inv in Hs as [[? ->] | [? (? & ? & ->)]]
           | context [if ?b then _ else _] => destruct b eqn:?
           end;
    try (injection Hs as <-);
    simpl; repeat split; intros; try congruence;
    try (left; congruence); try (right; repeat split; congruence);
    try match goal with
        | Hn : forall key, _ <> _ |- _ => exfalso; eapply Hn; reflexivity
        | Hn : true = true -> _ /\ _ |- _ => now apply Hn
        | Hn : false = false -> ?x = _ |- ?x = _ => now apply Hn
        end.
Qed.

(** While the calculator is off, SHIFT and ALPHA are off and the entry is
    empty: only Shift+AC switches it off, and that clears all three. *)
Lemma off_state st :
  reachable st ->
  power st = false ->
  shift st = false /\ alpha st = false /\ current st = "".
Proof.
  induction 1 as [|st fuel e st' Hr IH Hs]; [discriminate|].
  intros Hoff.
  destruct (step_modifiers _ _ _ _ Hs) as (_ & _ & Hsame & Hon & _).
  destruct (power st) eqn:Hp.
  - destruct (Hon eq_refl) as [Hc|Hc]; [congruence|exact Hc].
  - destruct e; try (rewrite (Hsame eq_refl ltac:(discriminate)) in *; now auto).
    eval_key. rewrite Hp in Hs. injection Hs as <-. discriminate.
Qed.

Lemma off_has_no_modifier st :
  reachable st -> power st = false -> shift st = false /\ alpha st = false.
Proof. intros Hr Hoff. destruct (off_state st Hr Hoff) as (? & ? & _). auto. Qed.

(** C6: while [power] is false every event but PowerOn returns the state it
    was given, whatever the fuel; PowerOn is still accepted and switches the
    calculator on. *)
Theorem powered_off_ignores_events fuel e st :
  power st = false ->
  (e <> PowerOn -> step fuel e st = Some st) /\
  (exists st', step fuel PowerOn st = Some st' /\ power st' = true).
Proof.
  intros Hoff. split.
  - intros He.
    destruct_event e; try congruence; eval_key;
      rewrite ?handleNumKey_off, ?handleOp_off by assumption;
      rewrite ?Hoff; reflexivity.
  - eval_key. rewrite Hoff. simpl. eauto.
Qed.

(** C7: in a state of the calculator with SHIFT on, AllClear switches it
    off: it resets power, current, pendingOp, acc, lastAns, shift and alpha,
    and keeps hyp, mode, memory and vars. *)
Theorem shift_allclear_powers_off fuel st :
  reachable st ->
  shift st = true ->
  step fuel AllClear st =
    Some {| power := false; shift := false; alpha := false; hyp := hyp st;
            mode := mode st; acc := 0; pendingOp := None; current := "";
            lastAns := 0; memory := memory st; vars := vars st |}.
Proof.
  intros Hr Hshift.
  assert (Hon : power st = true).
  { destruct (power st) eqn:Hp; [reflexivity|].
    destruct (off_has_no_modifier st Hr Hp). congruence. }
  eval_key. rewrite Hon, Hshift. reflexivity.
Qed.

(** C8: with the power on, PowerOn empties [current] and changes no other
    field. *)
Theorem power_on_clears_entry fuel st :
  power st = true ->
  step fuel PowerOn st =
    Some {| power := power st; shift := shift st; alpha := alpha st;
            hyp := hyp st; mode := mode st; acc := acc st;
            pendingOp := pendingOp st; current := ""; lastAns := lastAns st;
            memory := memory st; vars := vars st |}.
Proof.
  intros Hon. eval_key. rewrite Hon. reflexivity.
Qed.

(** C9: an event that is not ModeToggle (the MODE and DRG keys) leaves
    [mode] as it was: AllClear with or without SHIFT, PowerOn and all the
    others.  Every event but Factorial returns for any fuel, and ModeToggle
    does flip the mode when the power is on. *)
Theorem mode_changes_only_by_toggle (e : Event) (st : State) :
  ((forall key, e <> ModeToggle key) ->
   forall fuel st', step fuel e st = Some st' -> mode st' = mode st) /\
  (e <> Factorial -> forall fuel, exists st', step fuel e st = Some st') /\
  (forall fuel key,
     power st = true ->
     exists st', step fuel (ModeToggle key) st = Some st' /\ mode st' <> mode st).
Proof.
  split; [|split].
  - intros He fuel st' Hs. now apply (step_modifiers _ _ _ _ Hs).
  - intros Hf fuel.
    destruct_event e; try congruence; eval_key;
      unfold applyUnary;
      repeat match goal with
             | |- context [if ?b then _ else _] => destruct b
             end; eauto.
  - intros fuel key Hon. destruct key; eval_key; rewrite Hon; simpl;
      (eexists; split; [reflexivity|]); simpl; now destruct (mode st).
Qed.

(** C2, as the code has it: the keys that call [clearShifts] leave SHIFT
    and ALPHA off; PowerOn, Hyp, ModeToggle, the digits, the decimal point
    and the binary operators leave both as they were; and only Hyp changes
    [hyp]. *)
Theorem one_shot_modifiers fuel e st st' :
  reachable st ->
  step fuel e st = Some st' ->
  (clears_modifiers e = true -> shift st' = false /\ alpha st' = false) /\
  (keeps_modifiers e = true -> shift st' = shift st /\ alpha st' = alpha st) /\
  (e <> Hyp -> hyp st' = hyp st).
Proof.
  intros Hr Hs.
  destruct (step_modifiers _ _ _ _ Hs) as (Hh & _ & Hsame & _ & Hclr & Hkeep).
  repeat split; try (now apply Hkeep); try (now apply Hh);
    destruct (power st) eqn:Hp; try (now apply Hclr);
    (assert (He : e <> PowerOn) by (intros ->; discriminate));
    rewrite (Hsame eq_refl He); now apply off_has_no_modifier.
Qed.

(** C4: which function a trig key applies, and to what.  With HYP and
    SHIFT the inverse hyperbolic function takes the entry itself and its
    result is kept as it is; with SHIFT alone the inverse function takes the
    entry and its result goes from radians to degrees exactly in DEG mode;
    without SHIFT the hyperbolic or the plain function takes the entry
    converted to radians in DEG mode, the entry itself in RAD mode.  The
    result, or 'Error' when it is not finite, becomes [current]. *)
Theorem trig_dispatch (kind : TrigKind) (st : State) :
  let v := entry st in
  let inRad := match mode st with
               | DEG => (v * Js.Math_PI / 180)%float
               | RAD => v
               end in
  (hyp st = true -> shift st = true ->
   trigResult kind st =
     match kind with
     | Sin => Math_asinh v | Cos => Math_acosh v | Tan => Math_atanh v
     end) /\
  (hyp st = false -> shift st = true ->
   trigResult kind st =
     let r := match kind with
              | Sin => Math_asin v | Cos => Math_acos v | Tan => Math_atan v
              end in
     match mode st with
     | DEG => (r * 180 / Js.Math_PI)%float
     | RAD => r
     end) /\
  (shift st = false ->
   trigResult kind st =
     if hyp st then
       match kind with
       | Sin => Math_sinh inRad | Cos => Math_cosh inRad | Tan => Math_tanh inRad
       end
     else
       match kind with
       | Sin => Math_sin inRad | Cos => Math_cos inRad | Tan => Math_tan inRad
       end) /\
  (power st = true ->
   forall fuel,
     step fuel (Trig kind) st =
       Some (clearShifts
               (set_current (if Js.isFinite (trigResult kind st)
                             then Js.ToString (trigResult kind st)
                             else "Error") st))).
Proof.
  cbv zeta. unfold trigResult, degToRad, radToDeg.
  repeat split.
  - now intros -> ->.
  - now intros -> ->.
  - now intros ->.
  - intros Hon fuel. destruct kind; eval_key; rewrite Hon; simpl;
      unfold trigApply, shown; rewrite Hon; simpl;
      now destruct (Js.isFinite _).
Qed.

(** C10: Factorial on the entry 'Error'.  The entry reads as NaN, the
    function given to applyUnary returns 1 as soon as the loop test has run
    once, and [current] becomes "1" (the calculator is on: off, its entry
    is empty). *)
Theorem factorial_of_error fuel st :
  reachable st ->
  current st = "Error" ->
  is_nan (entry st) = true /\
  factorial (S fuel) (entry st) = Some 1%float /\
  step (S fuel) Factorial st = Some (clearShifts (set_current "1" st)).
Proof.
  intros Hr Hcur.
  assert (Hon : power st = true).
  { destruct (power st) eqn:Hp; [reflexivity|].
    destruct (off_state st Hr Hp) as (_ & _ & He). rewrite Hcur in He.
    discriminate. }
  assert (Hnan : entry st = nan) by (unfold entry; rewrite Hcur; reflexivity).
  assert (Hfact : factorial (S fuel) (entry st) = Some 1%float)
    by (rewrite Hnan; reflexivity).
  repeat split; [now rewrite Hnan | exact Hfact |].
  eval_key. unfold applyUnary. rewrite Hon, Hfact. reflexivity.
Qed.

(** C1, on the code: 8 / 0 = .  executePending does write 'Error' into
    [current], and the equal key then empties it, so the result line shows
    0; [acc] is 0 and no operator is pending. *)
Theorem division_by_zero_then_equals fuel :
  exists before st',
    run fuel [Digit D8; BinaryOp Divide; Digit D0] state = Some before /\
    current (executePending before) = "Error" /\
    step fuel Equals before = Some st' /\
    current st' = "" /\ acc st' = 0%float /\ pendingOp st' = None /\
    snd (refreshScreen st') = "0".
Proof.
  do 2 eexists. split; [vm_compute; reflexivity|].
  split; [reflexivity|]. split; [vm_compute; reflexivity|].
  repeat split.
Qed.

(** C3: 5 + 3 + 2 = leaves 10 in [lastAns].  Operators are folded from the
    left, without precedence (2 + 3 x 4 = gives 20): with an operator
    pending and an entry present, the next operator key first runs
    executePending. *)
Theorem chained_operators_fold_left fuel :
  (exists st',
     run fuel [Digit D5; BinaryOp Plus; Digit D3; BinaryOp Plus; Digit D2; Equals]
       state = Some st' /\ lastAns st' = 10%float) /\
  (exists st',
     run fuel [Digit D2; BinaryOp Plus; Digit D3; BinaryOp Times; Digit D4; Equals]
       state = Some st' /\ lastAns st' = 20%float) /\
  (forall op st,
     power st = true -> op_set (pendingOp st) = true -> current st <> "" ->
     step fuel (BinaryOp op) st =
       Some (set_pendingOp (Some (op_key op)) (executePending st))).
Proof.
  repeat split.
  - eexists. split; [vm_compute; reflexivity|reflexivity].
  - eexists. split; [vm_compute; reflexivity|reflexivity].
  - intros op st Hon Hop Hcur. eval_key. unfold handleOp.
    rewrite Hon, Hop. destruct (String.eqb_spec (current st) ""); [contradiction|].
    reflexivity.
Qed.

(** *** The entry grammar *)

Lemma entry_chars_app s t :
  entry_chars (s ++ t) = entry_chars s && entry_chars t.
Proof.
  induction s as [|c s IH]; simpl; [reflexivity|].
  rewrite IH. now destruct (is_digit c || Ascii.eqb c ".").
Qed.

Lemma dots_app s t : dots (s ++ t) = (dots s + dots t)%nat.
Proof. induction s as [|c s IH]; simpl; [reflexivity|]. rewrite IH. lia. Qed.

Lemma includes_dots s : includes "." s = false -> dots s = 0%nat.
Proof.
  induction s as [|c s IH]; simpl; [reflexivity|].
  destruct (Ascii.eqb c "."); simpl; [discriminate|exact IH].
Qed.

Lemma entry_chars_slice s : entry_chars s = true -> entry_chars (slice_0_m1 s) = true.
Proof.
  induction s as [|c [|c' s] IH]; simpl in *; try reflexivity.
  intros Hs. apply andb_true_iff in Hs as [-> Hs]. now rewrite IH.
Qed.

Lemma dots_slice s : (dots (slice_0_m1 s) <= dots s)%nat.
Proof. induction s as [|c [|c' s] IH]; simpl in *; lia. Qed.

Lemma entry_literal_slice s :
  entry_literal s = true -> entry_literal (slice_0_m1 s) = true.
Proof.
  unfold entry_literal. intros Hs. apply andb_true_iff in Hs as [Hc Hd].
  rewrite entry_chars_slice by assumption. simpl.
  apply Nat.leb_le in Hd. apply Nat.leb_le. pose proof (dots_slice s). lia.
Qed.

Lemma handleNumKey_digit d st :
  entry_literal (current st) = true ->
  entry_literal (current (handleNumKey (digit_key d) st)) = true.
Proof.
  intros Hs. unfold handleNumKey.
  destruct (power st); simpl; [|exact Hs].
  replace (digit_key d === ".") with false by now destruct d.
  simpl. destruct (current st === "0"); simpl; [now destruct d|].
  unfold entry_literal in *. apply andb_true_iff in Hs as [Hc Hd].
  rewrite entry_chars_app, dots_app, Hc.
  replace (dots (digit_key d)) with 0%nat by now destruct d.
  rewrite Nat.add_0_r, Hd. now destruct d.
Qed.

Lemma handleNumKey_point st :
  entry_literal (current st) = true ->
  entry_literal (current (handleNumKey "." st)) = true.
Proof.
  intros Hs. unfold handleNumKey.
  destruct (power st); simpl; [|exact Hs].
  destruct (includes "." (current st)) eqn:Hi; simpl; [exact Hs|].
  rewrite andb_false_r. simpl.
  unfold entry_literal in *. apply andb_true_iff in Hs as [Hc _].
  now rewrite entry_chars_app, dots_app, Hc, (includes_dots _ Hi).
Qed.

Lemma storeRecall_sto_current answer st :
  current (storeRecall "sto" answer st) = current st.
Proof.
  unfold storeRecall. cbn [String.eqb Ascii.eqb Bool.eqb].
  repeat match goal with
         | |- context [match ?x with _ => _ end] => destruct x
         end; reflexivity.
Qed.

Lemma pi_entry_literal : entry_literal (Js.ToString Js.Math_PI) = true.
Proof. vm_compute. reflexivity. Qed.

Lemma step_keeps_entry fuel e st :
  keeps_entry e = true ->
  entry_literal (current st) = true ->
  exists st', step fuel e st = Some st' /\ entry_literal (current st') = true.
Proof.
  intros He Hs.
  destruct e as [| | | |[]| |d| | | | |op| | | | | | | | | |[]| | | | |answer|answer|];
    try discriminate; eval_key;
    try (eexists; split; [reflexivity|];
         first [now apply handleNumKey_digit | now apply handleNumKey_point]);
    destruct (power st); cbn [negb andb orb];
    repeat match goal with
           | |- context [if ?b then _ else _] => destruct b
           end;
    (eexists; split; [reflexivity|]); simpl;
    rewrite ?storeRecall_sto_current;
    auto using entry_literal_slice, pi_entry_literal.
Qed.

(** C5, as the code has it: an entry made of digits with at most one '.'
    stays one through PowerOn, Shift, Alpha, Hyp, ModeToggle, AllClear, the
    digits, the decimal point, Delete, Pi, Equals, MemAdd, MemSub, MemClear
    and Store, and each of these keys returns.  The other keys write 'Error'
    or the string of a computed number. *)
Theorem entry_grammar_preserved fuel es st :
  Forall (fun e => keeps_entry e = true) es ->
  entry_literal (current st) = true ->
  exists st', run fuel es st = Some st' /\ entry_literal (current st') = true.
Proof.
  intros Hes. revert st.
  induction Hes as [|e es He _ IH]; intros st Hs; simpl; [eauto|].
  destruct (step_keeps_entry fuel e st He Hs) as (st1 & -> & Hs1).
  now apply IH.
Qed.

(** *** Fuel, modifiers and memory *)



(** X1: SHIFT and ALPHA are never on together. *)
Theorem modifiers_exclusive st : reachable st -> shift st && alpha st = false.
Proof.
  induction 1 as [|st fuel e st' Hr IH Hs]; [reflexivity|].
  destruct (step_modifiers _ _ _ _ Hs) as (_ & _ & Hsame & _ & Hclr & Hkeep).
  destruct (keeps_modifiers e) eqn:Hk.
  { destruct (Hkeep eq_refl) as [-> ->]. exact IH. }
  destruct (clears_modifiers e) eqn:Hc.
  { destruct (power st) eqn:Hp.
    - now destruct (Hclr eq_refl eq_refl) as [-> ->].
    - rewrite (Hsame eq_refl); [exact IH|]. intros ->. discriminate. }
  destruct e; try discriminate; eval_key;
    destruct (power st); injection Hs as <-; simpl; auto using andb_false_r.
Qed.

(** X2: [memory] changes through M+, M- and MC only, and these three keys leave
    acc, pendingOp, current and lastAns alone. *)
Theorem memory_keys_only (e : Event) (st : State) :
  (e <> MemAdd -> e <> MemSub -> e <> MemClear ->
   forall fuel st', step fuel e st = Some st' -> memory st' = memory st) /\
  (e = MemAdd \/ e = MemSub \/ e = MemClear ->
   forall fuel, exists st',
     step fuel e st = Some st' /\ acc st' = acc st /\
     pendingOp st' = pendingOp st /\ current st' = current st /\
     lastAns st' = lastAns st).
Proof.
  split.
  - intros Ha Hb Hc fuel st' Hs.
    destruct e as [| | | |[]| |d| | | | |op| | | | | | | | | |[]| | | | |answer|answer|];
      try congruence; eval_key;
      try frame_of (handleNumKey_frame (digit_key d) st);
      try frame_of (handleNumKey_frame "." st);
      try frame_of (handleOp_frame (op_key op) st);
      try frame_of (storeRecall_frame "sto" answer st);
      try frame_of (storeRecall_frame "rcl" answer st);
      frame_of (executePending_frame st);
      frame_of (trigApply_frame Sin st);
      frame_of (trigApply_frame Cos st);
      frame_of (trigApply_frame Tan st);
      destruct (power st) eqn:Hp; cbn [negb andb orb] in Hs;
      repeat match type of Hs with
             | applyUnary ?f ?s = Some _ =>
                 apply applyUnary_inv in Hs as [[? ->] | [? (? & ? & ->)]]
             | context [if ?b then _ else _] => destruct b eqn:?
             end;
      try (injection Hs as <-); simpl; congruence.
  - intros [-> | [-> | ->]] fuel; eval_key; destruct (power st);
      (eexists; split; [reflexivity|]); repeat split.
Qed.

(** X3: Shift+AC and then ON: the calculator is on again with an empty entry;
    acc, pendingOp and lastAns were reset by the power-off, and hyp, mode,
    memory and vars are those from before. *)
Theorem power_cycle fuel st :
  reachable st ->
  shift st = true ->
  run fuel [AllClear; PowerOn] st =
    Some {| power := true; shift := false; alpha := false; hyp := hyp st;
            mode := mode st; acc := 0; pendingOp := None; current := "";
            lastAns := 0; memory := memory st; vars := vars st |}.
Proof.
  intros Hr Hshift.
  assert (Hon : power st = true).
  { destruct (power st) eqn:Hp; [reflexivity|].
    destruct (off_has_no_modifier st Hr Hp). congruence. }
  unfold run. eval_key. rewrite Hon, Hshift. reflexivity.
Qed.

(** *** A loop counter that is never NaN *)

Lemma run_reachable fuel es st st' :
  reachable st -> run fuel es st = Some st' -> reachable st'.
Proof.
  revert st. induction es as [|e es IH]; simpl; intros st Hr Hs.
  - now injection Hs as <-.
  - destruct (step fuel e st) as [st1|] eqn:H1; [|discriminate].
    apply (IH st1); [|exact Hs]. exact (reachable_step st fuel e st1 Hr H1).
Qed.

Lemma shr_1_nonneg mrs : 0 <= shr_m mrs -> 0 <= shr_m (shr_1 mrs).
Proof.
  destruct mrs as [m r s]. simpl.
  destruct m as [|[p|p|]|[p|p|]]; simpl; lia.
Qed.

Lemma iter_shr_1_nonneg p mrs :
  0 <= shr_m mrs -> 0 <= shr_m (@SpecFloat.iter_pos shr_record shr_1 p mrs).
Proof.
  revert mrs. induction p as [p IH|p IH|]; intros mrs Hm; simpl.
  - apply IH, IH. now apply shr_1_nonneg.
  - now apply IH, IH.
  - now apply shr_1_nonneg.
Qed.

Lemma shr_fexp_nonneg m e l :
  0 <= m -> 0 <= shr_m (fst (shr_fexp prec emax m e l)).
Proof.
  intros Hm. unfold shr_fexp, shr.
  assert (H0 : 0 <= shr_m (shr_record_of_loc m l))
    by (destruct l as [|[]]; exact Hm).
  destruct (fexp prec emax (Zdigits2 m + e) - e); simpl; auto.
  now apply iter_shr_1_nonneg.
Qed.

Lemma round_nearest_even_nonneg m l : 0 <= m -> 0 <= round_nearest_even m l.
Proof.
  intros Hm. destruct l as [|[]]; simpl; try lia.
  destruct (Z.even m); lia.
Qed.

Lemma binary_round_aux_not_nan s m e l :
  0 <= m -> binary_round_aux prec emax s m e l <> S754_nan.
Proof.
  intros Hm. unfold binary_round_aux.
  pose proof (shr_fexp_nonneg m e l Hm) as H1.
  destruct (shr_fexp prec emax m e l) as [mrs' e']. simpl in H1.
  pose proof (round_nearest_even_nonneg (shr_m mrs') (loc_of_shr_record mrs') H1)
    as H2.
  pose proof (shr_fexp_nonneg _ e' loc_Exact H2) as H3.
  destruct (shr_fexp prec emax _ e' loc_Exact) as [mrs'' e'']. simpl in H3.
  destruct (shr_m mrs''); try lia; try discriminate.
  destruct (e'' <=? emax - prec); discriminate.
Qed.

Lemma binary_normalize_not_nan m e sz :
  binary_normalize prec emax m e sz <> S754_nan.
Proof.
  unfold binary_normalize, binary_round.
  destruct m as [|p|p]; [discriminate| |];
    destruct (shl_align _ _ _); now apply binary_round_aux_not_nan.
Qed.

Lemma SFadd_finite_not_nan x sy my ey :
  x <> S754_nan -> SF64add x (S754_finite sy my ey) <> S754_nan.
Proof.
  intros Hx. unfold SF64add, SFadd.
  destruct x as [s|s| |s m e]; try discriminate; try contradiction.
  apply binary_normalize_not_nan.
Qed.

(* i++ *)
Lemma add_one_not_nan i :
  Prim2SF i <> S754_nan -> Prim2SF (i + 1)%float <> S754_nan.
Proof. intros Hi. rewrite add_spec. now apply SFadd_finite_not_nan. Qed.

(* i <= Infinity *)
Lemma leb_infinity i : Prim2SF i <> S754_nan -> (i <=? infinity)%float = true.
Proof.
  intros Hi. rewrite leb_spec.
  change (Prim2SF infinity) with (S754_infinity false).
  destruct (Prim2SF i) as [s|[]| |s m e]; try reflexivity. contradiction.
Qed.

Lemma factorial_loop_infinity fuel i res :
  Prim2SF i <> S754_nan -> factorial_loop fuel i res infinity = None.
Proof.
  revert i res. induction fuel as [|fuel IH]; intros i res Hi; simpl;
    [reflexivity|].
  rewrite (leb_infinity i Hi). apply IH. now apply add_one_not_nan.
Qed.

(** X5: when the entry reads as Infinity the factorial key never returns:
    the loop test [i <= v] holds at every iteration. *)
Theorem factorial_of_infinity_never_returns fuel st :
  power st = true -> entry st = infinity -> step fuel Factorial st = None.
Proof.
  intros Hon Hinf. eval_key. unfold applyUnary, factorial.
  rewrite Hon, Hinf. simpl.
  change (Js.Math_floor infinity) with infinity.
  change (infinity <? 0)%float with false. cbv iota.
  rewrite factorial_loop_infinity; [reflexivity|discriminate].
Qed.

End Properties.

(** ** More of the handlers *)

(* the facts of a frame lemma, with the handler's result made a variable *)
Ltac with_frame lemma :=
  let F := fresh "F" in
  pose proof lemma as F; cbv zeta in F;
  decompose [and] F; clear F;
  match type of lemma with
  | let st' := ?t in _ => let x := fresh "st'" in set (x := t) in *; clearbody x
  end.

(* every handler result an event can reach, framed *)
Ltac all_frames d op answer st :=
  try with_frame (handleNumKey_frame (digit_key d) st);
  try with_frame (handleNumKey_frame "." st);
  try with_frame (handleOp_frame (op_key op) st);
  try with_frame (storeRecall_frame "sto" answer st);
  try with_frame (storeRecall_frame "rcl" answer st);
  with_frame (executePending_frame st);
  with_frame (trigApply_frame Sin st);
  with_frame (trigApply_frame Cos st);
  with_frame (trigApply_frame Tan st).

(* the cases of a hypothesis [step fuel e st = Some st'], one state each *)
Ltac step_cases :=
  cbn [negb andb orb] in *;
  repeat match goal with
         | Hs : applyUnary _ _ = Some _ |- _ =>
             apply applyUnary_inv in Hs as [[? ->] | [? (? & ? & ->)]]
         | Hs : context [if ?b then _ else _] |- _ =>
             lazymatch type of Hs with _ = Some _ => destruct b eqn:? end
         | Hs : Some _ = Some _ |- _ => injection Hs as <-
         end.

Section Registers.

Context `{MathLib}.

(* the two ways out of executePending with an operator pending *)
Lemma executePending_outcome st :
  op_set (pendingOp st) = true ->
  executePending st = set_pendingOp None (set_acc 0 (set_current "Error" st)) \/
  exists x, Js.isFinite x = true /\
            executePending st = set_current "" (set_lastAns x (set_acc x st)).
Proof.
  intros Hop. unfold executePending. rewrite Hop. cbn [negb].
  match goal with
  | |- context [match ?r with Str _ => _ | Num _ => _ end] => destruct r as [?|x]
  end; [now left|].
  destruct (Js.isFinite x) eqn:Hx; simpl; [right; eauto|now left].
Qed.

(* only Shift+AC switches off, and it resets the registers *)
Lemma step_into_off fuel e st st' :
  step fuel e st = Some st' ->
  power st = true ->
  power st' = false ->
  current st' = "" /\ pendingOp st' = None /\ acc st' = 0%float /\
  lastAns st' = 0%float.
Proof.
  intros Hs Hon Hoff.
  destruct e as [| | | |[]| |d| | | | |op| | | | | | | | | |[]| | | | |answer|answer|];
    eval_key; all_frames d op answer st;
    destruct (power st) eqn:Hp; try discriminate Hon; step_cases;
    simpl in *; try congruence; repeat split.
Qed.

Lemma off_registers st :
  reachable st ->
  power st = false ->
  current st = "" /\ pendingOp st = None /\ acc st = 0%float /\
  lastAns st = 0%float.
Proof.
  induction 1 as [|st fuel e st' Hr IH Hs]; [discriminate|].
  intros Hoff.
  destruct (step_modifiers _ _ _ _ Hs) as (_ & _ & Hsame & _).
  destruct (power st) eqn:Hp.
  - exact (step_into_off _ _ _ _ Hs Hp Hoff).
  - destruct e; try (rewrite (Hsame eq_refl ltac:(discriminate)) in *; now auto).
    eval_key. rewrite Hp in Hs. injection Hs as <-. discriminate.
Qed.

(** X6: what a switched-off calculator shows: an empty expression line, 0 on
    the result line, OFF, and neither S nor A. *)
Theorem off_display st :
  reachable st ->
  power st = false ->
  refreshScreen st = ("", "0") /\
  powerInd (updateIndicators st) = "OFF" /\
  shiftInd (updateIndicators st) = "" /\
  alphaInd (updateIndicators st) = "".
Proof.
  intros Hr Hoff.
  destruct (off_registers st Hr Hoff) as (Hc & Hp & _ & Hl).
  destruct (off_state st Hr Hoff) as (Hs & Ha & _).
  unfold refreshScreen, updateIndicators. simpl.
  rewrite Hc, Hp, Hl, Hs, Ha, Hoff. repeat split.
Qed.

(** X7: acc, pendingOp and lastAns are written by the operator keys, by
    Equals and by AllClear only: a function key leaves the last answer as it
    was. *)
Theorem registers_change_only_by_evaluation (e : Event) (st : State) :
  (forall op, e <> BinaryOp op) -> e <> Equals -> e <> AllClear ->
  forall fuel st',
    step fuel e st = Some st' ->
    acc st' = acc st /\ pendingOp st' = pendingOp st /\ lastAns st' = lastAns st.
Proof.
  intros Hop He Hac fuel st' Hs.
  destruct e as [| | | |[]| |d| | | | |op| | | | | | | | | |[]| | | | |answer|answer|];
    try congruence; try (exfalso; eapply Hop; reflexivity);
    eval_key; all_frames d op answer st; step_cases;
    simpl; repeat split; congruence.
Qed.

(** X8: Equals is idempotent: pressed again at once, it returns the state
    it was given. *)
Theorem equals_idempotent fuel st :
  exists st1,
    step fuel Equals st = Some st1 /\ step fuel Equals st1 = Some st1.
Proof.
  eval_key. destruct (power st) eqn:Hp; cbn [negb andb].
  - eexists. split; [reflexivity|].
    destruct (executePending_frame st) as (Hpow & _).
    cbn [power clearShifts set_alpha set_shift set_pendingOp set_current
         set_lastAns]. rewrite Hpow, Hp. cbn [negb andb].
    unfold executePending at 1 2. simpl.
    unfold entry. simpl. reflexivity.
  - exists st. rewrite Hp. auto.
Qed.

Lemma handleOp_on op st :
  power st = true ->
  handleOp op st =
    set_pendingOp (Some op)
      (if op_set (pendingOp st) && negb (current st === "") then executePending st
       else if negb (current st === "") then
         set_current "" (set_acc (toNumber (Str (current st))) st)
       else st).
Proof. unfold handleOp. now intros ->. Qed.

(* with 'Error' as the entry every operator gives 'Error' again *)
Lemma executePending_on_error op st :
  acc st = 0%float ->
  current st = "Error" ->
  pendingOp st = Some (op_key op) ->
  executePending st = set_pendingOp None (set_acc 0 (set_current "Error" st)).
Proof.
  intros Ha Hc Hp. unfold executePending. rewrite Ha, Hc, Hp.
  now destruct op.
Qed.

(** X9: an operator key pressed right after another replaces it: the two
    keys leave the state the second would have left alone. *)
Theorem second_operator_replaces fuel op1 op2 st :
  exists st1 st2,
    step fuel (BinaryOp op1) st = Some st1 /\
    step fuel (BinaryOp op2) st1 = Some st2 /\
    step fuel (BinaryOp op2) st = Some st2.
Proof.
  eval_key. do 2 eexists. split; [reflexivity|]. split; [|reflexivity].
  f_equal.
  destruct (power st) eqn:Hp;
    [|now rewrite (handleOp_off (op_key op1) st Hp), (handleOp_off (op_key op2) st Hp)].
  assert (Hk : op_set (Some (op_key op1)) = true) by now destruct op1.
  destruct (executePending_frame st) as (Hpe & _).
  rewrite (handleOp_on (op_key op1) st Hp), (handleOp_on (op_key op2) st Hp).
  destruct (op_set (pendingOp st)) eqn:Hop;
    destruct (current st === "") eqn:Hc; cbn [negb andb];
    try (rewrite handleOp_on by exact Hp; cbn [pendingOp current set_pendingOp
           set_current set_acc]; rewrite ?Hk, ?Hc; reflexivity).
  destruct (executePending_outcome st Hop) as [He | (x & Hx & He)];
    rewrite He; (rewrite handleOp_on by exact Hp);
    cbn [pendingOp current set_pendingOp set_current set_acc set_lastAns];
    rewrite Hk; cbn [String.eqb Ascii.eqb Bool.eqb negb andb]; [|reflexivity].
  now rewrite (executePending_on_error op1).
Qed.

End Registers.

Section Evaluation.

Context `{MathLib}.

(* the right operand of executePending is the entry *)
Lemma operand_entry st :
  toNumber (if current st === "" then Num (lastAns st) else Str (current st))
  = entry st.
Proof. unfold entry. now destruct (current st). Qed.

(* b === 0 holds for 0 and -0 only *)
Lemma eqb_zero b : (b =? 0)%float = true -> exists s, Prim2SF b = S754_zero s.
Proof.
  rewrite FloatAxioms.eqb_spec. change (Prim2SF 0) with (S754_zero false).
  destruct (Prim2SF b) as [s|[]| |[] m e]; try discriminate. eauto.
Qed.

Lemma rem_by_zero a b : (b =? 0)%float = true -> Js.rem a b = nan.
Proof.
  intros Hb. destruct (eqb_zero b Hb) as [s Hs]. unfold Js.rem. rewrite Hs.
  now destruct (Prim2SF a).
Qed.

(** X10: evaluating a pending operator never stores a number that is not
    finite: either the result is finite and becomes acc and lastAns, with
    the entry emptied, or the entry becomes 'Error', acc 0 and no operator
    is pending, lastAns being kept.  With the division or the remainder
    pending and an entry equal to 0 it is the second. *)
Theorem pending_evaluation_is_finite_or_error (st : State) :
  op_set (pendingOp st) = true ->
  let st' := executePending st in
  ((current st' = "Error" /\ acc st' = 0%float /\ pendingOp st' = None /\
    lastAns st' = lastAns st) \/
   (current st' = "" /\ Js.isFinite (acc st') = true /\
    lastAns st' = acc st' /\ pendingOp st' = pendingOp st)) /\
  (pendingOp st = Some "÷" \/ pendingOp st = Some "%" ->
   (entry st =? 0)%float = true ->
   current st' = "Error").
Proof.
  intros Hop. cbv zeta. split.
  - destruct (executePending_outcome st Hop) as [-> | (x & Hx & ->)]; simpl; auto.
  - intros Hdiv Hz. unfold executePending. rewrite Hop, operand_entry.
    cbn [negb].
    destruct Hdiv as [-> | ->]; [now rewrite Hz|].
    now rewrite (rem_by_zero _ _ Hz).
Qed.

(** *** Typing and deleting *)

Lemma slice_0_m1_app s a : slice_0_m1 (s ++ String a "") = s.
Proof.
  induction s as [|c s IH]; [reflexivity|].
  simpl. rewrite IH. now destruct s.
Qed.

Lemma len_app_pos s a : (0 <? Js.len (s ++ String a "")) = true.
Proof.
  unfold Js.len. destruct s; simpl; apply Z.ltb_lt; lia.
Qed.

Lemma digit_key_char d : exists a, digit_key d = String a "" /\ is_digit a = true.
Proof. destruct d; eexists; split; reflexivity. Qed.

(* a digit typed on an entry other than "0" is appended *)
Lemma handleNumKey_appends d st :
  power st = true ->
  current st <> "0" ->
  handleNumKey (digit_key d) st = set_current (current st ++ digit_key d) st.
Proof.
  intros Hon Hc. unfold handleNumKey. rewrite Hon.
  replace (digit_key d === ".") with false by now destruct d.
  destruct (String.eqb_spec (current st) "0"); [contradiction|reflexivity].
Qed.

(** X11: Delete takes back the key just typed: after a digit typed on an
    entry other than "0", or a decimal point typed on an entry without one,
    Delete leaves the entry as it was before the key. *)
Theorem delete_undoes_typing fuel (st : State) :
  power st = true ->
  (forall d,
     current st <> "0" ->
     exists st', run fuel [Digit d; Delete] st = Some st' /\
                 current st' = current st) /\
  (includes "." (current st) = false ->
   exists st', run fuel [DecimalPoint; Delete] st = Some st' /\
               current st' = current st).
Proof.
  intros Hon. split.
  - intros d Hc. unfold run. eval_key.
    rewrite (handleNumKey_appends d st Hon Hc).
    destruct (digit_key_char d) as (a & -> & _). cbn [power set_current current].
    rewrite Hon, len_app_pos. cbn [negb andb]. eexists. split; [reflexivity|].
    simpl. apply slice_0_m1_app.
  - intros Hi. unfold run. eval_key. unfold handleNumKey.
    rewrite Hon, Hi. cbn [negb andb String.eqb Ascii.eqb Bool.eqb].
    rewrite andb_false_r. cbn [power set_current current].
    rewrite Hon, len_app_pos. cbn [negb andb]. eexists. split; [reflexivity|].
    simpl. apply slice_0_m1_app.
Qed.

Lemma append_assoc (a b c : string) : (a ++ b) ++ c = a ++ (b ++ c).
Proof.
  induction a as [|x a IH]; [reflexivity|].
  change (String x ((a ++ b) ++ c) = String x (a ++ (b ++ c))).
  now rewrite IH.
Qed.

Lemma append_empty_r (a : string) : a ++ "" = a.
Proof.
  induction a as [|x a IH]; [reflexivity|].
  change (String x (a ++ "") = String x a). now rewrite IH.
Qed.

Lemma app_digit_not_zero s d : s <> "" -> s ++ digit_key d <> "0".
Proof.
  destruct s as [|c [|c' s]]; [contradiction| |]; intros _;
    destruct d; discriminate.
Qed.

Lemma digits_typed fuel ds st :
  power st = true ->
  current st <> "" -> current st <> "0" ->
  run fuel (map Digit ds) st = Some (set_current (current st ++ digits_text ds) st).
Proof.
  revert st. induction ds as [|d ds IH]; intros st Hon Hne Hnz; simpl.
  - rewrite append_empty_r. now destruct st.
  - rewrite (handleNumKey_appends d st Hon Hnz).
    rewrite IH.
    + cbn [current set_current]. now rewrite append_assoc.
    + exact Hon.
    + cbn [current set_current].
      destruct (current st); [contradiction|discriminate].
    + cbn [current set_current]. now apply app_digit_not_zero.
Qed.

(** X12: the entry is a faithful record of the digits typed: from an empty
    entry, the digit keys of a number that does not start with 0 leave
    exactly its digits in [current] and change nothing else. *)
Theorem digits_accumulate fuel d ds (st : State) :
  power st = true ->
  current st = "" ->
  d <> D0 ->
  run fuel (map Digit (d :: ds)) st
  = Some (set_current (digits_text (d :: ds)) st).
Proof.
  intros Hon Hc Hd. simpl.
  assert (H1 : handleNumKey (digit_key d) st = set_current (digit_key d) st).
  { rewrite handleNumKey_appends; [now rewrite Hc|exact Hon|].
    rewrite Hc. discriminate. }
  rewrite H1, digits_typed; simpl; auto; now destruct d.
Qed.

End Evaluation.

Section Variables_and_keyboard.

Context `{MathLib}.

(** *** STO and RCL *)

Lemma storeRecall_sto name st :
  name <> "" ->
  test_A_F (var_key name) = true ->
  storeRecall "sto" (Some name) st
  = clearShifts (set_vars (<[var_key name := entry st]> (vars st)) st).
Proof.
  intros Hn Hk. unfold storeRecall. fold (var_key name).
  rewrite Hk, operand_entry. destruct name; [contradiction|reflexivity].
Qed.

Lemma storeRecall_rcl name st :
  name <> "" ->
  test_A_F (var_key name) = true ->
  storeRecall "rcl" (Some name) st
  = match vars st !! var_key name with
    | Some x => clearShifts (set_current (Js.ToString x) st)
    | None => clearShifts st
    end.
Proof.
  intros Hn Hk. unfold storeRecall. fold (var_key name).
  rewrite Hk. destruct name; [contradiction|reflexivity].
Qed.

(** X13: a variable gives back what was stored in it.  With the power and
    ALPHA on, STO answered with a name whose first letter (blanks trimmed,
    upper-cased) is A to F, then ALPHA, then RCL answered with a name of the
    same letter, leave the string of the stored entry in [current]; the
    other variables are as before. *)
Theorem store_then_recall fuel name name' (st : State) :
  power st = true ->
  alpha st = true ->
  name <> "" -> name' <> "" ->
  test_A_F (var_key name) = true ->
  var_key name' = var_key name ->
  exists st',
    run fuel [Store (Some name); Alpha; Recall (Some name')] st = Some st' /\
    current st' = Js.ToString (entry st) /\
    vars st' = <[var_key name := entry st]> (vars st).
Proof.
  intros Hon Ha Hn Hn' Hk Hsame. unfold run. eval_key.
  rewrite Hon, Ha. cbn [negb andb].
  rewrite (storeRecall_sto name st Hn Hk).
  cbn [power alpha shift clearShifts set_alpha set_shift set_vars].
  rewrite Hon. cbn [negb andb].
  rewrite storeRecall_rcl by (rewrite ?Hsame; assumption).
  rewrite Hsame. cbn [vars clearShifts set_shift set_alpha set_vars].
  rewrite lookup_insert_eq.
  cbn [power alpha clearShifts set_shift set_alpha set_vars set_current].
  rewrite Hon. cbn [negb andb].
  eexists. split; [reflexivity|]. split; reflexivity.
Qed.


Lemma test_A_F_one_letter k :
  test_A_F (charAt0 k) = true -> exists a, charAt0 k = String a "".
Proof. destruct k; [discriminate|]. simpl. eauto. Qed.

(* a key of the variables after STO or RCL was one before, or is a letter *)
Lemma storeRecall_vars fn answer st k x :
  vars (storeRecall fn answer st) !! k = Some x ->
  vars st !! k = Some x \/ (test_A_F k = true /\ exists a, k = String a "").
Proof.
  unfold storeRecall.
  destruct answer as [[|c name]|]; simpl; auto.
  fold (var_key (String c name)).
  destruct (test_A_F (var_key (String c name))) eqn:Hk; simpl; auto.
  destruct (fn === "sto"); simpl.
  - destruct (decide (var_key (String c name) = k)) as [<-|Hne].
    + intros _. right. split; [exact Hk|]. now apply test_A_F_one_letter.
    + rewrite lookup_insert_ne by exact Hne. auto.
  - destruct (vars st !! var_key (String c name)); simpl; auto.
Qed.

Lemma step_vars fuel e st st' k x :
  step fuel e st = Some st' ->
  vars st' !! k = Some x ->
  vars st !! k = Some x \/ (test_A_F k = true /\ exists a, k = String a "").
Proof.
  intros Hs Hk.
  destruct e as [| | | |[]| |d| | | | |op| | | | | | | | | |[]| | | | |answer|answer|];
    eval_key;
    try (destruct (power st), (alpha st); cbn [negb andb] in Hs;
         injection Hs as <-; first [now apply storeRecall_vars in Hk | now left]);
    all_frames d op answer st; step_cases; simpl in *; left; congruence.
Qed.

(** X15: the variables are named A to F: in every state of the calculator
    each key of [vars] is one of these six letters. *)
Theorem variables_are_A_to_F st k x :
  reachable st ->
  vars st !! k = Some x ->
  test_A_F k = true /\ exists a, k = String a "".
Proof.
  intros Hr. revert k x.
  induction Hr as [|st fuel e st' Hr IH Hs]; intros k x Hk.
  - discriminate.
  - destruct (step_vars _ _ _ _ _ _ Hs Hk) as [Hold|Hnew]; eauto.
Qed.

(** *** The keyboard *)

Lemma keydown_frame fuel key st :
  power st = true ->
  shift st = false ->
  exists st',
    keydown fuel key st = Some st' /\
    power st' = true /\ shift st' = false /\
    (alpha st = false -> alpha st' = false) /\
    hyp st' = hyp st /\ mode st' = mode st /\ memory st' = memory st /\
    vars st' = vars st.
Proof.
  intros Hon Hsh. unfold keydown, handleKey.
  cbn [String.eqb Ascii.eqb Bool.eqb negb andb orb].
  with_frame (handleNumKey_frame key st).
  with_frame (handleOp_frame "+" st).
  with_frame (handleOp_frame "−" st).
  with_frame (handleOp_frame "×" st).
  with_frame (handleOp_frame "÷" st).
  with_frame (executePending_frame st).
  rewrite Hon, Hsh. cbn [negb andb].
  repeat match goal with
         | |- context [if ?b then _ else _] => destruct b
         end;
    (eexists; split; [reflexivity|]); simpl; repeat split; congruence.
Qed.

(** X16: the keyboard reaches the digits, the four operators, Equals,
    Delete, AllClear and ON only.  From a state with the power on and SHIFT
    off, the initial one for instance, no sequence of keys typed on it
    switches the calculator off or turns SHIFT or ALPHA on, and none changes
    hyp, mode, memory or the variables; every keydown returns. *)
Theorem keyboard_only fuel keys (st : State) :
  power st = true ->
  shift st = false ->
  exists st',
    type_keys fuel keys st = Some st' /\
    power st' = true /\ shift st' = false /\
    (alpha st = false -> alpha st' = false) /\
    hyp st' = hyp st /\ mode st' = mode st /\ memory st' = memory st /\
    vars st' = vars st.
Proof.
  revert st. induction keys as [|key keys IH]; intros st Hon Hsh; simpl.
  - exists st. auto 10.
  - destruct (keydown_frame fuel key st Hon Hsh)
      as (st1 & -> & Hon1 & Hsh1 & Ha1 & Hh1 & Hm1 & Hmem1 & Hv1).
    destruct (IH st1 Hon1 Hsh1)
      as (st' & -> & Hon' & Hsh' & Ha' & Hh' & Hm' & Hmem' & Hv').
    exists st'. repeat split; auto; congruence.
Qed.

(** X17: the keyboard takes any key whose name contains a digit for a
    number key and types the whole name: with the power on it replaces an
    entry "0" and is appended to any other, nothing else changing; a name
    with a character that is neither a digit nor the point (F5, Numpad1)
    takes the entry out of the entry grammar. *)
Theorem keydown_types_key_names fuel key (st : State) :
  power st = true ->
  has_digit key = true ->
  let typed := if current st === "0" then key else current st ++ key in
  keydown fuel key st = Some (set_current typed st) /\
  (entry_chars key = false -> entry_literal typed = false).
Proof.
  intros Hon Hd typed. split.
  - unfold keydown. rewrite Hon, Hd. cbn [negb andb orb].
    unfold handleNumKey. rewrite Hon. cbn [negb].
    assert (Hp : (key === ".") = false).
    { destruct (String.eqb_spec key "."); [subst; discriminate|reflexivity]. }
    rewrite Hp. cbn [negb andb]. rewrite andb_true_r.
    subst typed. now destruct (current st === "0").
  - intros Hk. subst typed. unfold entry_literal.
    destruct (current st === "0"); [now rewrite Hk|].
    now rewrite entry_chars_app, Hk, andb_false_r.
Qed.

End Variables_and_keyboard.

(** ** Entries read as numbers *)

(* the eleven characters of the entry grammar *)
Lemma entry_char_cases c :
  is_digit c || Ascii.eqb c "." = true ->
  Js.is_space c = false /\
  Ascii.eqb c "e" = false /\ Ascii.eqb c "E" = false /\
  ((Ascii.eqb c "." = true /\ is_digit c = false /\ Js.digit_in 10 c = None) \/
   (Ascii.eqb c "." = false /\ is_digit c = true /\
    exists v, Js.digit_in 10 c = Some v /\ 0 <= v)).
Proof.
  destruct c as [[] [] [] [] [] [] [] []]; intros Hc; try discriminate Hc;
    (split; [reflexivity|]); (split; [reflexivity|]); (split; [reflexivity|]);
    first [ left; repeat split; reflexivity
          | right; split; [reflexivity|]; split; [reflexivity|];
            eexists; split; [vm_compute; reflexivity | lia] ].
Qed.

Lemma trim_no_space s : no_space s = true -> Js.trim s = s.
Proof.
  intros Hs. unfold Js.trim.
  assert (H1 : Js.trim_start s = s).
  { destruct s as [|c s]; [reflexivity|]. simpl in *.
    apply andb_true_iff in Hs as [Hc _].
    now destruct (Js.is_space c). }
  rewrite H1. clear H1.
  induction s as [|c s IH]; [reflexivity|]. simpl in *.
  apply andb_true_iff in Hs as [Hc Hs]. rewrite (IH Hs).
  destruct (Js.is_space c); [discriminate|]. now destruct s.
Qed.

Lemma entry_chars_no_space s : entry_chars s = true -> no_space s = true.
Proof.
  induction s as [|c s IH]; [reflexivity|]. simpl.
  intros Hs. apply andb_true_iff in Hs as [Hc Hs].
  now rewrite (proj1 (entry_char_cases c Hc)), IH.
Qed.

Lemma trim_entry s : entry_chars s = true -> Js.trim s = s.
Proof. intros Hs. now apply trim_no_space, entry_chars_no_space. Qed.

(* no prefix 0x, 0o or 0b, no sign, not Infinity *)
Lemma Number_entry s :
  entry_chars s = true -> s <> "" ->
  Js.Number s =
    let '(i, ni, r1) := Js.span_digits 10 s 0 0 in
    let '(m, nf, r2) :=
      match r1 with
      | String "." r' => Js.span_digits 10 r' i 0
      | _ => (i, 0, r1)
      end in
    if ni + nf =? 0 then nan
    else match Js.exponent_part r2 with
         | Some e => Js.round_decimal false m (e - nf)
         | None => nan
         end.
Proof.
  intros Hs Hne. unfold Js.Number. rewrite (trim_entry s Hs).
  destruct s as [|c1 s]; [contradiction|]. simpl in Hs.
  apply andb_true_iff in Hs as [Hc1 Hs].
  destruct c1 as [[] [] [] [] [] [] [] []]; try discriminate Hc1;
    try reflexivity.
  destruct s as [|c2 s]; [reflexivity|]. simpl in Hs.
  apply andb_true_iff in Hs as [Hc2 _].
  destruct c2 as [[] [] [] [] [] [] [] []]; try discriminate Hc2; reflexivity.
Qed.

Lemma span_digits_entry s acc cnt :
  entry_chars s = true -> 0 <= acc ->
  exists acc' n r,
    Js.span_digits 10 s acc cnt = (acc', cnt + n, r) /\
    0 <= acc' /\ 0 <= n /\ entry_chars r = true /\ dots r = dots s /\
    (r = "" \/ exists r', r = String "." r') /\
    (has_digit s = true -> 0 < n \/ has_digit r = true).
Proof.
  revert acc cnt. induction s as [|c s IH]; intros acc cnt Hs Hacc.
  - exists acc, 0, "". simpl. rewrite Z.add_0_r. repeat split; auto; lia.
  - simpl in Hs. apply andb_true_iff in Hs as [Hc Hs].
    destruct (entry_char_cases c Hc)
      as (_ & _ & _ & [(Hp & Hd & Hv) | (Hp & Hd & v & Hv & Hv0)]).
    + exists acc, 0, (String c s). simpl. rewrite Hv, Z.add_0_r, Hc, Hs.
      repeat split; auto; try lia.
      right. exists s. f_equal. now apply Ascii.eqb_eq.
    + destruct (IH (acc * 10 + v) (cnt + 1) Hs ltac:(lia))
        as (acc' & n & r & Hsp & Ha & Hn & Hr & Hdots & Hshape & Hdig).
      exists acc', (n + 1), r. simpl. rewrite Hv, Hsp, Hp.
      replace (cnt + 1 + n) with (cnt + (n + 1)) by lia.
      repeat split; auto; try lia.
Qed.

Lemma SF2Prim_not_nan x : x <> S754_nan -> Prim2SF (SF2Prim x) <> S754_nan.
Proof.
  intros Hx. destruct x as [[]|[]| |s m e]; try discriminate; try contradiction.
  unfold SF2Prim.
  assert (Hf : Prim2SF (Z.ldexp (of_uint63 (Uint63.of_Z (Z.pos m))) e)
               <> S754_nan).
  { rewrite Z_ldexp_spec, of_uint63_spec. unfold SFldexp.
    pose proof (binary_normalize_not_nan
                  (Uint63Axioms.to_Z (Uint63.of_Z (Z.pos m))) 0 false) as Hn.
    destruct (binary_normalize _ _ _ _ _) as [| | |sx mx ex];
      try discriminate; try contradiction.
    unfold binary_round. destruct (shl_align _ _ _).
    now apply binary_round_aux_not_nan. }
  destruct s; [|exact Hf].
  rewrite opp_spec.
  now destruct (Prim2SF (Z.ldexp (of_uint63 (Uint63.of_Z (Z.pos m))) e)).
Qed.

Lemma round_ratio_not_nan neg n d : Prim2SF (Js.round_ratio neg n d) <> S754_nan.
Proof.
  unfold Js.round_ratio.
  destruct ((n <=? 0) || (d <=? 0)) eqn:Hnd.
  - now destruct neg.
  - apply orb_false_iff in Hnd as [Hn Hd].
    apply Z.leb_gt in Hn. apply Z.leb_gt in Hd.
    apply SF2Prim_not_nan, binary_round_aux_not_nan.
    apply Z.div_pos; [|exact Hd].
    apply Z.mul_nonneg_nonneg; [lia|]. apply Z.pow_nonneg. lia.
Qed.

Lemma round_decimal_not_nan neg m e : Js.round_decimal neg m e <> nan.
Proof.
  intros Hnan.
  assert (Prim2SF (Js.round_decimal neg m e) = S754_nan) by now rewrite Hnan.
  unfold Js.round_decimal in *.
  destruct (0 <=? e); now apply round_ratio_not_nan in H.
Qed.

Section Reading.

Context `{MathLib}.

(** X18: an entry made of digits and at most one point, with a digit in
    it, reads as a number: toNumber never gives NaN on what the digit and
    point keys leave in [current]. *)
Theorem typed_entry_is_a_number (st : State) :
  entry_literal (current st) = true ->
  has_digit (current st) = true ->
  entry st <> nan.
Proof.
  unfold entry_literal. intros Hs Hd.
  apply andb_true_iff in Hs as [Hc Hdots]. apply Nat.leb_le in Hdots.
  assert (Hne : current st <> "") by (intros E; rewrite E in Hd; discriminate).
  unfold entry, or_else, toNumber.
  destruct (current st) as [|c0 s0] eqn:Hcur; [contradiction|].
  rewrite <- Hcur in *. clear c0 s0 Hcur. revert Hc Hdots Hd Hne.
  generalize (current st). intros s Hc Hdots Hd Hne.
  rewrite (Number_entry s Hc Hne).
  destruct (span_digits_entry s 0 0 Hc ltac:(lia))
    as (i & n & r1 & -> & Hi & Hn & Hr1 & Hd1 & [-> | (r' & ->)] & Hdig).
  - rewrite Z.add_0_r.
    destruct (Hdig Hd) as [Hpos | Hbad]; [|discriminate].
    replace (0 + n =? 0) with false by (symmetry; apply Z.eqb_neq; lia).
    apply round_decimal_not_nan.
  - simpl in Hr1, Hd1.
    destruct (span_digits_entry r' i 0 Hr1 Hi)
      as (m & n2 & r2 & -> & Hm & Hn2 & Hr2 & Hd2 & Hshape & Hdig2).
    assert (Hr2e : r2 = "").
    { destruct Hshape as [-> | (r'' & ->)]; [reflexivity|].
      simpl in Hd2. lia. }
    subst r2.
    assert (Hpos : 0 < n + n2).
    { destruct (Hdig Hd) as [? | Hr]; [lia|]. simpl in Hr.
      destruct (Hdig2 Hr) as [? | ?]; [lia|discriminate]. }
    replace (0 + n + (0 + n2) =? 0) with false by (symmetry; apply Z.eqb_neq; lia).
    apply round_decimal_not_nan.
Qed.

End Reading.

(** ** After an error, the memory, the factorial *)

Lemma digits_text_entry ds : entry_chars (digits_text ds) = true.
Proof.
  induction ds as [|d ds IH]; [reflexivity|]. simpl.
  rewrite entry_chars_app, IH. now destruct d.
Qed.

Lemma no_space_app s t : no_space (s ++ t) = no_space s && no_space t.
Proof.
  induction s as [|c s IH]; [reflexivity|]. simpl. rewrite IH.
  now destruct (Js.is_space c).
Qed.

Lemma Number_after_Error t : no_space t = true -> Js.Number ("Error" ++ t) = nan.
Proof.
  intros Ht. unfold Js.Number. rewrite trim_no_space.
  - reflexivity.
  - now rewrite no_space_app, Ht.
Qed.

(* 0 + x is x, but for the sign of -0 *)
Lemma ToString_zero_plus x : Js.ToString (0 + x) = Js.ToString x.
Proof.
  assert (Hadd : Prim2SF (0 + x) = SF64add (S754_zero false) (Prim2SF x))
    by now rewrite add_spec.
  destruct (Prim2SF x) as [[]|s| |s m e] eqn:Hx.
  - unfold Js.ToString. now rewrite Hadd, Hx.
  - f_equal. apply Prim2SF_inj. now rewrite Hadd, Hx.
  - f_equal. apply Prim2SF_inj. now rewrite Hadd, Hx.
  - f_equal. apply Prim2SF_inj. now rewrite Hadd, Hx.
  - f_equal. apply Prim2SF_inj. now rewrite Hadd, Hx.
Qed.

Section Edges.

Context `{MathLib}.

(** X19: typing does not clear an error: digits typed on the entry 'Error'
    are appended to it, and the entry then reads as NaN. *)
Theorem typing_after_error fuel ds (st : State) :
  power st = true ->
  current st = "Error" ->
  exists st',
    run fuel (map Digit ds) st = Some st' /\
    current st' = "Error" ++ digits_text ds /\
    entry st' = nan.
Proof.
  intros Hon Hc. eexists. split.
  - apply digits_typed; [exact Hon| |]; rewrite Hc; discriminate.
  - rewrite Hc. split; [reflexivity|].
    unfold entry. cbn [current set_current or_else toNumber String.append].
    apply (Number_after_Error (digits_text ds)).
    apply entry_chars_no_space, digits_text_entry.
Qed.

(** X20: the memory gives back what was added to it: MC, M+, MR leave the
    string of the entry in [current], and the entry's value in [memory]. *)
Theorem memory_round_trip fuel (st : State) :
  power st = true ->
  exists st',
    run fuel [MemClear; MemAdd; MemRecall] st = Some st' /\
    current st' = Js.ToString (entry st) /\
    memory st' = (0 + entry st)%float.
Proof.
  intros Hon. unfold run. eval_key.
  repeat (cbn [power clearShifts set_alpha set_shift set_memory];
          rewrite Hon; cbn [negb andb]).
  eexists. split; [reflexivity|]. split; [|reflexivity].
  cbn [current memory clearShifts set_alpha set_shift set_memory set_current].
  apply ToString_zero_plus.
Qed.

(** X21: the factorial at its edges: an entry whose floor is negative
    gives 'Error' without entering the loop, and an entry whose floor is
    below 2 (0, 1, a fraction between, or no number at all) gives 1 with
    one loop test. *)
Theorem factorial_edges fuel (st : State) :
  power st = true ->
  ((Js.Math_floor (entry st) <? 0)%float = true ->
   step fuel Factorial st = Some (clearShifts (set_current "Error" st))) /\
  ((Js.Math_floor (entry st) <? 0)%float = false ->
   (2 <=? Js.Math_floor (entry st))%float = false ->
   step (S fuel) Factorial st = Some (clearShifts (set_current "1" st))).
Proof.
  intros Hon. split.
  - intros Hneg. eval_key. unfold applyUnary, factorial.
    now rewrite Hon, Hneg.
  - intros Hpos Hlow. eval_key. unfold applyUnary, factorial.
    rewrite Hon, Hpos. simpl. now rewrite Hlow.
Qed.

End Edges.

(** ** The theorems at concrete keys

    Closed instances, run on the series engine. *)

Lemma reachable_shifted : reachable shifted.
Proof. exact (reachable_step state 0 Shift shifted reachable_init eq_refl). Qed.

Lemma reachable_switched_off : reachable switched_off.
Proof. exact (reachable_step shifted 0 AllClear switched_off reachable_shifted eq_refl). Qed.

Lemma reachable_failed : reachable failed.
Proof.
  apply (reachable_step state 0 Reciprocal failed reachable_init).
  vm_compute. reflexivity.
Qed.

Lemma reachable_typed_12 : reachable typed_12.
Proof.
  apply (reachable_step (set_current "1" state) 0 (Digit D2)); [|reflexivity].
  now apply (reachable_step state 0 (Digit D1) _ reachable_init).
Qed.

(* C6 at the digit 7, with the calculator off *)
Lemma powered_off_ignores_events_witness :
  power switched_off = false /\
  step 0 (Digit D7) switched_off = Some switched_off /\
  (exists st', step 0 PowerOn switched_off = Some st' /\ power st' = true).
Proof.
  split; [reflexivity|].
  destruct (powered_off_ignores_events 0 (Digit D7) switched_off eq_refl)
    as [Hnoop Hon].
  split; [apply Hnoop; discriminate | exact Hon].
Defined.

(* C7 right after Shift *)
Lemma shift_allclear_powers_off_witness :
  reachable shifted /\ shift shifted = true /\
  step 0 AllClear shifted = Some switched_off.
Proof.
  split; [exact reachable_shifted|]. split; [reflexivity|].
  exact (shift_allclear_powers_off 0 shifted reachable_shifted eq_refl).
Defined.

(* C8 with 12 typed in *)
Lemma power_on_clears_entry_witness :
  power typed_12 = true /\ current typed_12 = "12" /\
  step 0 PowerOn typed_12 = Some state.
Proof.
  split; [reflexivity|]. split; [reflexivity|].
  exact (power_on_clears_entry 0 typed_12 eq_refl).
Defined.

(* C2 for the Ans key pressed after Shift *)
Lemma one_shot_modifiers_witness :
  reachable shifted /\
  step 0 Ans shifted = Some (set_current "0" state) /\
  shift (set_current "0" state) = false /\ alpha (set_current "0" state) = false.
Proof.
  split; [exact reachable_shifted|].
  assert (Hs : step 0 Ans shifted = Some (set_current "0" state))
    by (vm_compute; reflexivity).
  split; [exact Hs|].
  exact (proj1 (one_shot_modifiers 0 Ans shifted _ reachable_shifted Hs) eq_refl).
Defined.

(* C10 after 1 / 0 *)
Lemma factorial_of_error_witness :
  reachable failed /\ current failed = "Error" /\
  step 1 Factorial failed = Some (set_current "1" state).
Proof.
  split; [exact reachable_failed|]. split; [reflexivity|].
  exact (proj2 (proj2 (factorial_of_error 0 failed reachable_failed eq_refl))).
Defined.

(* C5 for the keys 1 . 5 . DEL Pi 0 7 *)
Lemma entry_grammar_preserved_witness :
  exists st',
    run 0 [Digit D1; DecimalPoint; Digit D5; DecimalPoint; Delete; Pi;
           Digit D0; Digit D7] state = Some st' /\
    entry_literal (current st') = true.
Proof.
  apply (entry_grammar_preserved 0); [|reflexivity].
  repeat constructor.
Defined.


Lemma modifiers_exclusive_witness : shift shifted && alpha shifted = false.
Proof. exact (modifiers_exclusive shifted reachable_shifted). Defined.

Lemma power_cycle_witness :
  run 0 [AllClear; PowerOn] shifted = Some state.
Proof. exact (power_cycle 0 shifted reachable_shifted eq_refl). Defined.

(* 310 digits read as Infinity; x! then runs for ever *)
Lemma factorial_of_infinity_never_returns_witness :
  reachable huge /\ power huge = true /\ entry huge = infinity /\
  step 1000 Factorial huge = None.
Proof.
  assert (E : entry huge = infinity) by (vm_compute; reflexivity).
  split.
  { apply (run_reachable 0 (Digit D1 :: repeat (Digit D0) 309) state);
      [exact reachable_init | vm_compute; reflexivity]. }
  split; [reflexivity|]. split; [exact E|].
  exact (factorial_of_infinity_never_returns 1000 huge eq_refl E).
Defined.

(* sin 90 and, with SHIFT, asin 1 in DEG mode; 12345 in engineering form *)
Example keys_on_the_series_engine :
  (exists st, run 0 [Digit D9; Digit D0; Trig Sin] state = Some st /\
              current st = "1") /\
  (exists st, run 0 [Digit D1; Shift; Trig Sin] state = Some st /\
              current st = "90" /\ shift st = false) /\
  (exists st, run 0 [Digit D1; Digit D2; Digit D3; Digit D4; Digit D5;
                     EngNotation] state = Some st /\
              current st = "12.345e3").
Proof.
  repeat split; (eexists; split; [vm_compute; reflexivity|]); repeat split.
Qed.

(** ** The further theorems at concrete keys *)

Lemma reachable_stored : reachable stored.
Proof.
  apply (run_reachable 0 [Digit D1; Digit D2; Alpha; Store (Some "A")] state);
    [exact reachable_init | vm_compute; reflexivity].
Qed.

(* the display of the calculator switched off *)
Lemma off_display_witness :
  reachable switched_off /\ power switched_off = false /\
  refreshScreen switched_off = ("", "0") /\
  powerInd (updateIndicators switched_off) = "OFF".
Proof.
  split; [exact reachable_switched_off|]. split; [reflexivity|].
  destruct (off_display switched_off reachable_switched_off eq_refl)
    as (Hscreen & Hpower & _).
  split; [exact Hscreen | exact Hpower].
Defined.

(* the square root of 9 leaves the registers alone *)
Lemma registers_change_only_by_evaluation_witness :
  step 0 Sqrt (set_current "9" state) = Some (set_current "3" state) /\
  lastAns (set_current "3" state) = lastAns (set_current "9" state).
Proof.
  assert (Hs : step 0 Sqrt (set_current "9" state) = Some (set_current "3" state))
    by (vm_compute; reflexivity).
  split; [exact Hs|].
  refine (proj2 (proj2 (registers_change_only_by_evaluation Sqrt
            (set_current "9" state) _ _ _ 0%nat _ Hs))); discriminate.
Defined.

(* 8 ÷ 0 *)
Lemma pending_evaluation_is_finite_or_error_witness :
  op_set (pendingOp dividing) = true /\ (entry dividing =? 0)%float = true /\
  current (executePending dividing) = "Error".
Proof.
  assert (Hz : (entry dividing =? 0)%float = true) by (vm_compute; reflexivity).
  split; [reflexivity|]. split; [exact Hz|].
  exact (proj2 (pending_evaluation_is_finite_or_error dividing eq_refl)
           (or_introl eq_refl) Hz).
Defined.

(* 12, then 5 and DEL *)
Lemma delete_undoes_typing_witness :
  power typed_12 = true /\
  exists st', run 0 [Digit D5; Delete] typed_12 = Some st' /\ current st' = "12".
Proof.
  split; [reflexivity|].
  refine (proj1 (delete_undoes_typing 0 typed_12 eq_refl) D5 _). discriminate.
Defined.

(* the keys 1 and 2 *)
Lemma digits_accumulate_witness :
  run 0 [Digit D1; Digit D2] state = Some typed_12.
Proof.
  refine (digits_accumulate 0 D1 [D2] state eq_refl eq_refl _). discriminate.
Defined.

(* 12 stored under the answer ' a ' and recalled under 'Apple' *)
Lemma store_then_recall_witness :
  exists st',
    run 0 [Store (Some " a "); Alpha; Recall (Some "Apple")] lettered = Some st' /\
    current st' = Js.ToString (entry lettered) /\
    vars st' = <[var_key " a " := entry lettered]> (vars lettered).
Proof.
  apply (store_then_recall 0 " a " "Apple" lettered);
    try reflexivity; discriminate.
Defined.


(* the variable written by 1 2 ALPHA STO A *)
Lemma variables_are_A_to_F_witness :
  reachable stored /\ vars stored !! "A" = Some 12%float /\
  test_A_F "A" = true.
Proof.
  split; [exact reachable_stored|]. split; [reflexivity|].
  exact (proj1 (variables_are_A_to_F stored "A" 12%float reachable_stored eq_refl)).
Defined.

(* 1 + 2 Enter on the keyboard *)
Lemma keyboard_only_witness :
  exists st',
    type_keys 0 ["1"; "+"; "2"; "Enter"] state = Some st' /\
    power st' = true /\ shift st' = false /\
    (alpha state = false -> alpha st' = false) /\
    hyp st' = hyp state /\ mode st' = mode state /\ memory st' = memory state /\
    vars st' = vars state.
Proof. exact (keyboard_only 0 ["1"; "+"; "2"; "Enter"] state eq_refl eq_refl). Defined.

(* the function key F5 pressed after 12 *)
Lemma keydown_types_key_names_witness :
  keydown 0 "F5" typed_12 = Some (set_current "12F5" state) /\
  entry_literal "12F5" = false.
Proof.
  destruct (keydown_types_key_names 0 "F5" typed_12 eq_refl eq_refl) as [Hk Hg].
  split; [exact Hk | exact (Hg eq_refl)].
Defined.

(* 12 reads as a number *)
Lemma typed_entry_is_a_number_witness :
  entry_literal (current typed_12) = true /\ entry typed_12 <> nan.
Proof.
  split; [reflexivity|].
  exact (typed_entry_is_a_number typed_12 eq_refl eq_refl).
Defined.

(* 5 typed after 1 / 0 *)
Lemma typing_after_error_witness :
  current failed = "Error" /\
  exists st',
    run 0 [Digit D5] failed = Some st' /\
    current st' = "Error5" /\ entry st' = nan.
Proof.
  split; [reflexivity|].
  exact (typing_after_error 0 [D5] failed eq_refl eq_refl).
Defined.

(* 12 MC M+ MR *)
Lemma memory_round_trip_witness :
  exists st',
    run 0 [MemClear; MemAdd; MemRecall] typed_12 = Some st' /\
    current st' = "12" /\ memory st' = 12%float.
Proof.
  destruct (memory_round_trip 0 typed_12 eq_refl) as (st' & Hr & Hc & Hm).
  exists st'. split; [exact Hr|].
  split; [rewrite Hc | rewrite Hm]; vm_compute; reflexivity.
Defined.

(* 0! *)
Lemma factorial_edges_witness :
  step 1 Factorial state = Some (set_current "1" state).
Proof.
  refine (proj2 (factorial_edges 0 state eq_refl) _ _); vm_compute; reflexivity.
Defined.

(** ** Where the specification and the code part *)

(* C2 as stated: Shift, then 5: SHIFT is still on *)
Lemma one_shot_law_fails_for_digits :
  ~ (forall fuel e st st',
       reachable st ->
       e <> Shift -> e <> Alpha -> e <> Hyp -> (forall key, e <> ModeToggle key) ->
       step fuel e st = Some st' ->
       shift st' = false /\ alpha st' = false /\ hyp st' = hyp st).
Proof.
  intros Hlaw.
  destruct (Hlaw 0%nat (Digit D5) shifted (set_current "5" shifted)
              reachable_shifted) as [Hshift _];
    try discriminate.
  reflexivity.
Qed.

(* the lone point is in the entry grammar and reads as NaN *)
Example lone_point_entry :
  step 0 DecimalPoint state = Some (set_current "." state) /\
  entry_literal "." = true /\ Js.Number "." = nan.
Proof. repeat split. Qed.

(* C5 as stated: 1 / 0 leaves 'Error' in the entry *)
Lemma entry_grammar_fails_on_error :
  ~ (forall st,
       reachable st -> current st <> "" -> entry_literal (current st) = true).
Proof.
  intros Hinv.
  specialize (Hinv failed reachable_failed). simpl in Hinv.
  discriminate Hinv. discriminate.
Qed.
